(** * Multi-core isolation decisions and MPS4 power control of TF-M

    A shallow embedding of
    - [platform/ext/target/arm/mps4/common/device/include/power_control.h]
      (minimum power state register updates), and
    - [tfm_multi_core.h] (memory access check flags, memory region
      classification, access check and the non-secure client ID registry).

    Addresses, sizes and register values are [Z]; 32-bit wrap-around is
    written out where the C code has it. *)

From Stdlib Require Import ZArith List Bool Lia Relations.
Import ListNotations.
Open Scope Z_scope.

(** ** 32-bit words *)

Definition MASK32 : Z := 2 ^ 32 - 1.

(** [~x] on a 32-bit unsigned value. *)
Definition u32_not (x : Z) : Z := Z.lxor x MASK32.

(** ** power_control.h *)

Module PowerControl.

Definition PDCM_PD_SENSE_MIN_PWR_STATE_Pos : Z := 30.
Definition PDCM_PD_SENSE_MIN_PWR_STATE_Msk : Z :=
  Z.shiftl 3 PDCM_PD_SENSE_MIN_PWR_STATE_Pos.

Definition CPUPWRCFG_TCM_MIN_PWR_STATE_Pos : Z := 4.
Definition CPUPWRCFG_TCM_MIN_PWR_STATE_Msk : Z :=
  Z.shiftl 1 CPUPWRCFG_TCM_MIN_PWR_STATE_Pos.

Inductive PDCM_MIN_PWR_STATES :=
| PDCM_MIN_PWR_STATE_OFF
| PDCM_MIN_PWR_STATE_RET
| PDCM_MIN_PWR_STATE_ON.

(** The enumerators' values: OFF = 0, RET = 1, ON = 2. *)
Definition pdcm_min_pwr_state_val (s : PDCM_MIN_PWR_STATES) : Z :=
  match s with
  | PDCM_MIN_PWR_STATE_OFF => 0
  | PDCM_MIN_PWR_STATE_RET => 1
  | PDCM_MIN_PWR_STATE_ON => 2
  end.

(** The sense registers of [struct mps4_corstone3xx_sysctrl_t] written by
    this header. *)
Record mps4_corstone3xx_sysctrl_t := {
  pdcm_pd_sys_sense : Z;
  pdcm_pd_vmr0_sense : Z;
  pdcm_pd_vmr1_sense : Z
}.

Record cpu0_pwrctrl_t := {
  cpupwrcfg : Z
}.

(** [(reg & ~Msk) | ((v << Pos) & Msk)] *)
Definition set_field (reg v pos msk : Z) : Z :=
  Z.lor (Z.land reg (u32_not msk)) (Z.land (Z.shiftl v pos) msk).

Definition pdcm_sense_update (reg : Z) (s : PDCM_MIN_PWR_STATES) : Z :=
  set_field reg (pdcm_min_pwr_state_val s)
    PDCM_PD_SENSE_MIN_PWR_STATE_Pos PDCM_PD_SENSE_MIN_PWR_STATE_Msk.

Definition PD_VMR0_SET_MIN_PWR_STATE (s : PDCM_MIN_PWR_STATES)
    (sc : mps4_corstone3xx_sysctrl_t) : mps4_corstone3xx_sysctrl_t :=
  {| pdcm_pd_sys_sense := pdcm_pd_sys_sense sc;
     pdcm_pd_vmr0_sense := pdcm_sense_update (pdcm_pd_vmr0_sense sc) s;
     pdcm_pd_vmr1_sense := pdcm_pd_vmr1_sense sc |}.

Definition PD_VMR1_SET_MIN_PWR_STATE (s : PDCM_MIN_PWR_STATES)
    (sc : mps4_corstone3xx_sysctrl_t) : mps4_corstone3xx_sysctrl_t :=
  {| pdcm_pd_sys_sense := pdcm_pd_sys_sense sc;
     pdcm_pd_vmr0_sense := pdcm_pd_vmr0_sense sc;
     pdcm_pd_vmr1_sense := pdcm_sense_update (pdcm_pd_vmr1_sense sc) s |}.

Definition PD_SYS_SET_MIN_PWR_STATE (s : PDCM_MIN_PWR_STATES)
    (sc : mps4_corstone3xx_sysctrl_t) : mps4_corstone3xx_sysctrl_t :=
  {| pdcm_pd_sys_sense := pdcm_sense_update (pdcm_pd_sys_sense sc) s;
     pdcm_pd_vmr0_sense := pdcm_pd_vmr0_sense sc;
     pdcm_pd_vmr1_sense := pdcm_pd_vmr1_sense sc |}.

Definition PD_CPU0_TCM_SET_MIN_PWR_STATE (s : PDCM_MIN_PWR_STATES)
    (pc : cpu0_pwrctrl_t) : cpu0_pwrctrl_t :=
  {| cpupwrcfg :=
       set_field (cpupwrcfg pc) (pdcm_min_pwr_state_val s)
         CPUPWRCFG_TCM_MIN_PWR_STATE_Pos CPUPWRCFG_TCM_MIN_PWR_STATE_Msk |}.

(** The three calls run in program order. *)
Definition BR_SYS_SET_MIN_PWR_STATE_OFF (sc : mps4_corstone3xx_sysctrl_t)
    : mps4_corstone3xx_sysctrl_t :=
  PD_VMR1_SET_MIN_PWR_STATE PDCM_MIN_PWR_STATE_OFF
    (PD_VMR0_SET_MIN_PWR_STATE PDCM_MIN_PWR_STATE_OFF
      (PD_SYS_SET_MIN_PWR_STATE PDCM_MIN_PWR_STATE_OFF sc)).

Definition BR_SYS_SET_MIN_PWR_STATE_MEM_RET_OPMODE0
    (sc : mps4_corstone3xx_sysctrl_t) : mps4_corstone3xx_sysctrl_t :=
  PD_VMR1_SET_MIN_PWR_STATE PDCM_MIN_PWR_STATE_OFF
    (PD_VMR0_SET_MIN_PWR_STATE PDCM_MIN_PWR_STATE_OFF
      (PD_SYS_SET_MIN_PWR_STATE PDCM_MIN_PWR_STATE_OFF sc)).

(** The other sysctrl power modes. *)
Definition BR_SYS_SET_MIN_PWR_STATE_MEM_RET_OPMODE1
    (sc : mps4_corstone3xx_sysctrl_t) : mps4_corstone3xx_sysctrl_t :=
  PD_VMR1_SET_MIN_PWR_STATE PDCM_MIN_PWR_STATE_OFF
    (PD_VMR0_SET_MIN_PWR_STATE PDCM_MIN_PWR_STATE_RET
      (PD_SYS_SET_MIN_PWR_STATE PDCM_MIN_PWR_STATE_OFF sc)).

Definition BR_SYS_SET_MIN_PWR_STATE_MEM_RET_OPMODE2
    (sc : mps4_corstone3xx_sysctrl_t) : mps4_corstone3xx_sysctrl_t :=
  PD_VMR1_SET_MIN_PWR_STATE PDCM_MIN_PWR_STATE_RET
    (PD_VMR0_SET_MIN_PWR_STATE PDCM_MIN_PWR_STATE_OFF
      (PD_SYS_SET_MIN_PWR_STATE PDCM_MIN_PWR_STATE_OFF sc)).

Definition BR_SYS_SET_MIN_PWR_STATE_MEM_RET_OPMODE3
    (sc : mps4_corstone3xx_sysctrl_t) : mps4_corstone3xx_sysctrl_t :=
  PD_VMR1_SET_MIN_PWR_STATE PDCM_MIN_PWR_STATE_RET
    (PD_VMR0_SET_MIN_PWR_STATE PDCM_MIN_PWR_STATE_RET
      (PD_SYS_SET_MIN_PWR_STATE PDCM_MIN_PWR_STATE_OFF sc)).

Definition BR_SYS_SET_MIN_PWR_STATE_FULL_RET_OPMODE0
    (sc : mps4_corstone3xx_sysctrl_t) : mps4_corstone3xx_sysctrl_t :=
  PD_VMR1_SET_MIN_PWR_STATE PDCM_MIN_PWR_STATE_OFF
    (PD_VMR0_SET_MIN_PWR_STATE PDCM_MIN_PWR_STATE_OFF
      (PD_SYS_SET_MIN_PWR_STATE PDCM_MIN_PWR_STATE_RET sc)).

Definition BR_SYS_SET_MIN_PWR_STATE_FULL_RET_OPMODE1
    (sc : mps4_corstone3xx_sysctrl_t) : mps4_corstone3xx_sysctrl_t :=
  PD_VMR1_SET_MIN_PWR_STATE PDCM_MIN_PWR_STATE_OFF
    (PD_VMR0_SET_MIN_PWR_STATE PDCM_MIN_PWR_STATE_RET
      (PD_SYS_SET_MIN_PWR_STATE PDCM_MIN_PWR_STATE_RET sc)).

Definition BR_SYS_SET_MIN_PWR_STATE_FULL_RET_OPMODE2
    (sc : mps4_corstone3xx_sysctrl_t) : mps4_corstone3xx_sysctrl_t :=
  PD_VMR1_SET_MIN_PWR_STATE PDCM_MIN_PWR_STATE_RET
    (PD_VMR0_SET_MIN_PWR_STATE PDCM_MIN_PWR_STATE_OFF
      (PD_SYS_SET_MIN_PWR_STATE PDCM_MIN_PWR_STATE_RET sc)).

Definition BR_SYS_SET_MIN_PWR_STATE_FULL_RET_OPMODE3
    (sc : mps4_corstone3xx_sysctrl_t) : mps4_corstone3xx_sysctrl_t :=
  PD_VMR1_SET_MIN_PWR_STATE PDCM_MIN_PWR_STATE_RET
    (PD_VMR0_SET_MIN_PWR_STATE PDCM_MIN_PWR_STATE_RET
      (PD_SYS_SET_MIN_PWR_STATE PDCM_MIN_PWR_STATE_RET sc)).

Definition BR_SYS_SET_MIN_PWR_STATE_ON_OPMODE0
    (sc : mps4_corstone3xx_sysctrl_t) : mps4_corstone3xx_sysctrl_t :=
  PD_VMR1_SET_MIN_PWR_STATE PDCM_MIN_PWR_STATE_OFF
    (PD_VMR0_SET_MIN_PWR_STATE PDCM_MIN_PWR_STATE_OFF
      (PD_SYS_SET_MIN_PWR_STATE PDCM_MIN_PWR_STATE_ON sc)).

Definition BR_SYS_SET_MIN_PWR_STATE_ON_OPMODE1
    (sc : mps4_corstone3xx_sysctrl_t) : mps4_corstone3xx_sysctrl_t :=
  PD_VMR1_SET_MIN_PWR_STATE PDCM_MIN_PWR_STATE_OFF
    (PD_VMR0_SET_MIN_PWR_STATE PDCM_MIN_PWR_STATE_ON
      (PD_SYS_SET_MIN_PWR_STATE PDCM_MIN_PWR_STATE_ON sc)).

Definition BR_SYS_SET_MIN_PWR_STATE_ON_OPMODE2
    (sc : mps4_corstone3xx_sysctrl_t) : mps4_corstone3xx_sysctrl_t :=
  PD_VMR1_SET_MIN_PWR_STATE PDCM_MIN_PWR_STATE_ON
    (PD_VMR0_SET_MIN_PWR_STATE PDCM_MIN_PWR_STATE_OFF
      (PD_SYS_SET_MIN_PWR_STATE PDCM_MIN_PWR_STATE_ON sc)).

Definition BR_SYS_SET_MIN_PWR_STATE_ON_OPMODE3
    (sc : mps4_corstone3xx_sysctrl_t) : mps4_corstone3xx_sysctrl_t :=
  PD_VMR1_SET_MIN_PWR_STATE PDCM_MIN_PWR_STATE_ON
    (PD_VMR0_SET_MIN_PWR_STATE PDCM_MIN_PWR_STATE_ON
      (PD_SYS_SET_MIN_PWR_STATE PDCM_MIN_PWR_STATE_ON sc)).

(** CPU minimum power states: ON = 0, ON_CLK_OFF = 1, RET = 2, OFF = 3. *)
Inductive CPU_MIN_PWR_STATES :=
| CPU_MIN_PWR_STATE_ON
| CPU_MIN_PWR_STATE_ON_CLK_OFF
| CPU_MIN_PWR_STATE_RET
| CPU_MIN_PWR_STATE_OFF.

Definition cpu_min_pwr_state_val (s : CPU_MIN_PWR_STATES) : Z :=
  match s with
  | CPU_MIN_PWR_STATE_ON => 0
  | CPU_MIN_PWR_STATE_ON_CLK_OFF => 1
  | CPU_MIN_PWR_STATE_RET => 2
  | CPU_MIN_PWR_STATE_OFF => 3
  end.

(** The PWRMODCTL registers written by this header. *)
Record pwrmodctl_t := {
  CPDLPSTATE : Z;
  DPDLPSTATE : Z
}.

(** The field positions and masks of PWRMODCTL come from the CMSIS core
    header of the Cortex-M85, outside this repository: they are a parameter. *)
Record pwrmodctl_fields := {
  PWRMODCTL_CPDLPSTATE_CLPSTATE_Pos : Z;
  PWRMODCTL_CPDLPSTATE_CLPSTATE_Msk : Z;
  PWRMODCTL_CPDLPSTATE_ELPSTATE_Pos : Z;
  PWRMODCTL_CPDLPSTATE_ELPSTATE_Msk : Z;
  PWRMODCTL_CPDLPSTATE_RLPSTATE_Pos : Z;
  PWRMODCTL_CPDLPSTATE_RLPSTATE_Msk : Z;
  PWRMODCTL_DPDLPSTATE_DLPSTATE_Pos : Z;
  PWRMODCTL_DPDLPSTATE_DLPSTATE_Msk : Z
}.

(** The CPU0 power registers: PWRMODCTL and the CPU0 power control block. *)
Record cpu0_power_regs := {
  pwrmodctl : pwrmodctl_t;
  pwrctrl : cpu0_pwrctrl_t
}.

Section Cpu0Power.

Variable F : pwrmodctl_fields.

Definition PD_CPU0_CORE_SET_MIN_PWR_STATE (s : CPU_MIN_PWR_STATES)
    (st : cpu0_power_regs) : cpu0_power_regs :=
  {| pwrmodctl :=
       {| CPDLPSTATE :=
            set_field (CPDLPSTATE (pwrmodctl st)) (cpu_min_pwr_state_val s)
              (PWRMODCTL_CPDLPSTATE_CLPSTATE_Pos F)
              (PWRMODCTL_CPDLPSTATE_CLPSTATE_Msk F);
          DPDLPSTATE := DPDLPSTATE (pwrmodctl st) |};
     pwrctrl := pwrctrl st |}.

Definition PD_CPU0_EPU_SET_MIN_PWR_STATE (s : CPU_MIN_PWR_STATES)
    (st : cpu0_power_regs) : cpu0_power_regs :=
  {| pwrmodctl :=
       {| CPDLPSTATE :=
            set_field (CPDLPSTATE (pwrmodctl st)) (cpu_min_pwr_state_val s)
              (PWRMODCTL_CPDLPSTATE_ELPSTATE_Pos F)
              (PWRMODCTL_CPDLPSTATE_ELPSTATE_Msk F);
          DPDLPSTATE := DPDLPSTATE (pwrmodctl st) |};
     pwrctrl := pwrctrl st |}.

Definition PD_CPU0_RAM_SET_MIN_PWR_STATE (s : CPU_MIN_PWR_STATES)
    (st : cpu0_power_regs) : cpu0_power_regs :=
  {| pwrmodctl :=
       {| CPDLPSTATE :=
            set_field (CPDLPSTATE (pwrmodctl st)) (cpu_min_pwr_state_val s)
              (PWRMODCTL_CPDLPSTATE_RLPSTATE_Pos F)
              (PWRMODCTL_CPDLPSTATE_RLPSTATE_Msk F);
          DPDLPSTATE := DPDLPSTATE (pwrmodctl st) |};
     pwrctrl := pwrctrl st |}.

Definition PD_CPU0_DEBUG_SET_MIN_PWR_STATE (s : CPU_MIN_PWR_STATES)
    (st : cpu0_power_regs) : cpu0_power_regs :=
  {| pwrmodctl :=
       {| CPDLPSTATE := CPDLPSTATE (pwrmodctl st);
          DPDLPSTATE :=
            set_field (DPDLPSTATE (pwrmodctl st)) (cpu_min_pwr_state_val s)
              (PWRMODCTL_DPDLPSTATE_DLPSTATE_Pos F)
              (PWRMODCTL_DPDLPSTATE_DLPSTATE_Msk F) |};
     pwrctrl := pwrctrl st |}.

(** [PD_CPU0_TCM_SET_MIN_PWR_STATE] on the CPU0 power registers. *)
Definition PD_CPU0_TCM_SET (s : PDCM_MIN_PWR_STATES) (st : cpu0_power_regs)
    : cpu0_power_regs :=
  {| pwrmodctl := pwrmodctl st;
     pwrctrl := PD_CPU0_TCM_SET_MIN_PWR_STATE s (pwrctrl st) |}.

(** The body shared by every [BR_CPU0_SET_MIN_PWR_STATE_*]: core, EPU, RAM,
    then TCM, in program order. *)
Definition br_cpu0_sequence (core epu ram : CPU_MIN_PWR_STATES)
    (tcm : PDCM_MIN_PWR_STATES) (st : cpu0_power_regs) : cpu0_power_regs :=
  PD_CPU0_TCM_SET tcm
    (PD_CPU0_RAM_SET_MIN_PWR_STATE ram
      (PD_CPU0_EPU_SET_MIN_PWR_STATE epu
        (PD_CPU0_CORE_SET_MIN_PWR_STATE core st))).

Definition BR_CPU0_SET_MIN_PWR_STATE_OFF :=
  br_cpu0_sequence CPU_MIN_PWR_STATE_OFF CPU_MIN_PWR_STATE_OFF
    CPU_MIN_PWR_STATE_OFF PDCM_MIN_PWR_STATE_OFF.
Definition BR_CPU0_SET_MIN_PWR_STATE_MEM_RET :=
  br_cpu0_sequence CPU_MIN_PWR_STATE_OFF CPU_MIN_PWR_STATE_OFF
    CPU_MIN_PWR_STATE_RET PDCM_MIN_PWR_STATE_RET.
Definition BR_CPU0_SET_MIN_PWR_STATE_MEM_RET_NOCACHE :=
  br_cpu0_sequence CPU_MIN_PWR_STATE_OFF CPU_MIN_PWR_STATE_OFF
    CPU_MIN_PWR_STATE_OFF PDCM_MIN_PWR_STATE_RET.
Definition BR_CPU0_SET_MIN_PWR_STATE_LOGIC_RET :=
  br_cpu0_sequence CPU_MIN_PWR_STATE_RET CPU_MIN_PWR_STATE_OFF
    CPU_MIN_PWR_STATE_RET PDCM_MIN_PWR_STATE_RET.
Definition BR_CPU0_SET_MIN_PWR_STATE_LOGIC_RET_NOCACHE :=
  br_cpu0_sequence CPU_MIN_PWR_STATE_RET CPU_MIN_PWR_STATE_OFF
    CPU_MIN_PWR_STATE_OFF PDCM_MIN_PWR_STATE_RET.
Definition BR_CPU0_SET_MIN_PWR_STATE_FULL_RET :=
  br_cpu0_sequence CPU_MIN_PWR_STATE_RET CPU_MIN_PWR_STATE_RET
    CPU_MIN_PWR_STATE_RET PDCM_MIN_PWR_STATE_RET.
Definition BR_CPU0_SET_MIN_PWR_STATE_FULL_RET_NOCACHE :=
  br_cpu0_sequence CPU_MIN_PWR_STATE_RET CPU_MIN_PWR_STATE_RET
    CPU_MIN_PWR_STATE_OFF PDCM_MIN_PWR_STATE_RET.
Definition BR_CPU0_SET_MIN_PWR_STATE_EPU_OFF :=
  br_cpu0_sequence CPU_MIN_PWR_STATE_ON CPU_MIN_PWR_STATE_OFF
    CPU_MIN_PWR_STATE_ON PDCM_MIN_PWR_STATE_ON.
Definition BR_CPU0_SET_MIN_PWR_STATE_EPU_OFF_NOCACHE :=
  br_cpu0_sequence CPU_MIN_PWR_STATE_ON CPU_MIN_PWR_STATE_OFF
    CPU_MIN_PWR_STATE_OFF PDCM_MIN_PWR_STATE_ON.
Definition BR_CPU0_SET_MIN_PWR_STATE_FUNC_RET :=
  br_cpu0_sequence CPU_MIN_PWR_STATE_ON CPU_MIN_PWR_STATE_RET
    CPU_MIN_PWR_STATE_ON PDCM_MIN_PWR_STATE_ON.
Definition BR_CPU0_SET_MIN_PWR_STATE_FUNC_RET_NOCACHE :=
  br_cpu0_sequence CPU_MIN_PWR_STATE_ON CPU_MIN_PWR_STATE_RET
    CPU_MIN_PWR_STATE_OFF PDCM_MIN_PWR_STATE_ON.
Definition BR_CPU0_SET_MIN_PWR_STATE_ON :=
  br_cpu0_sequence CPU_MIN_PWR_STATE_ON CPU_MIN_PWR_STATE_ON
    CPU_MIN_PWR_STATE_ON PDCM_MIN_PWR_STATE_ON.
Definition BR_CPU0_SET_MIN_PWR_STATE_ON_NOCACHE :=
  br_cpu0_sequence CPU_MIN_PWR_STATE_ON CPU_MIN_PWR_STATE_ON
    CPU_MIN_PWR_STATE_OFF PDCM_MIN_PWR_STATE_ON.

End Cpu0Power.

End PowerControl.

(** ** tfm_multi_core.h: flags, result codes, attribute records *)

Module MultiCore.

(** Follow CMSE flag definitions. *)
Definition MEM_CHECK_MPU_READWRITE : Z := Z.shiftl 1 0.
Definition MEM_CHECK_AU_NONSECURE : Z := Z.shiftl 1 1.
Definition MEM_CHECK_MPU_UNPRIV : Z := Z.shiftl 1 2.
Definition MEM_CHECK_MPU_READ : Z := Z.shiftl 1 3.
Definition MEM_CHECK_MPU_NONSECURE : Z := Z.shiftl 1 4.
Definition MEM_CHECK_NONSECURE : Z :=
  Z.lor MEM_CHECK_AU_NONSECURE MEM_CHECK_MPU_NONSECURE.

(** [(void * )0xFFFFFFFF] and [NULL] as 32-bit pointer values. *)
Definition CLIENT_ID_OWNER_MAGIC : Z := 0xFFFFFFFF.
Definition NULL : Z := 0.

Definition UINTPTR_MAX : Z := MASK32.

(** The SPM result codes the header documents. *)
Inductive spm_result :=
| SPM_SUCCESS
| SPM_ERROR_GENERIC
| SPM_ERROR_BAD_PARAMETERS.

Record security_attr_info_t := {
  sec_is_valid : bool;
  sec_is_secure : bool
}.

Record mem_attr_info_t := {
  is_mpu_enabled : bool;
  is_valid : bool;
  is_xn : bool;
  is_priv_rd_allow : bool;
  is_priv_wr_allow : bool;
  is_unpriv_rd_allow : bool;
  is_unpriv_wr_allow : bool
}.

(** A statically declared region of the memory layout: [{base, size}] with
    its secure / non-secure tag; [limit = base + size]. *)
Record mem_region := {
  region_base : Z;
  region_size : Z;
  region_secure : bool
}.

Definition region_limit (r : mem_region) : Z := region_base r + region_size r.

(** A region of a resolver's permission table. *)
Record perm_region := {
  perm_base : Z;
  perm_size : Z;
  perm_xn : bool;
  perm_priv_rd : bool;
  perm_priv_wr : bool;
  perm_unpriv_rd : bool;
  perm_unpriv_wr : bool
}.

(** Modelled from the spec: the body of [check_address_range], which the
    header only declares ("contains(p, s, region_start, region_limit)"). A
    zero-size or overflowing range is malformed and never contained; otherwise
    [region_start <= p] and [p + s <= region_limit]. *)
Definition mem_range_malformed (p s : Z) : bool :=
  (p >? UINTPTR_MAX - s) || (s =? 0).

Definition check_address_range (p s region_start region_limit : Z)
    : spm_result :=
  if mem_range_malformed p s then SPM_ERROR_GENERIC
  else if (region_start <=? p) && (p + s <=? region_limit) then SPM_SUCCESS
  else SPM_ERROR_GENERIC.

Definition in_range (p s start limit : Z) : bool :=
  match check_address_range p s start limit with
  | SPM_SUCCESS => true
  | _ => false
  end.

Section Layout.

(** The static tables fixed at build time: the security layout used by the
    classifier and the permission tables of the secure and non-secure
    resolvers. *)
Variable mem_layout : list mem_region.
Variable secure_perm_table : list perm_region.
Variable ns_perm_table : list perm_region.

Fixpoint find_mem_region (p s : Z) (rs : list mem_region)
    : option mem_region :=
  match rs with
  | [] => None
  | r :: rs' =>
      if in_range p s (region_base r) (region_limit r) then Some r
      else find_mem_region p s rs'
  end.

(** Modelled from the spec (4.1): the body of
    [tfm_get_mem_region_security_attr], a walk over the static layout. *)
Definition tfm_get_mem_region_security_attr (p s : Z) : security_attr_info_t :=
  match find_mem_region p s mem_layout with
  | Some r => {| sec_is_valid := true; sec_is_secure := region_secure r |}
  | None => {| sec_is_valid := false; sec_is_secure := false |}
  end.

Fixpoint find_perm_region (p s : Z) (rs : list perm_region)
    : option perm_region :=
  match rs with
  | [] => None
  | r :: rs' =>
      if in_range p s (perm_base r) (perm_base r + perm_size r) then Some r
      else find_perm_region p s rs'
  end.

Definition mem_attr_invalid : mem_attr_info_t :=
  {| is_mpu_enabled := false; is_valid := false; is_xn := true;
     is_priv_rd_allow := false; is_priv_wr_allow := false;
     is_unpriv_rd_allow := false; is_unpriv_wr_allow := false |}.

Definition resolve_mem_attr (tbl : list perm_region) (p s : Z)
    : mem_attr_info_t :=
  match find_perm_region p s tbl with
  | Some r =>
      {| is_mpu_enabled := false; is_valid := true; is_xn := perm_xn r;
         is_priv_rd_allow := perm_priv_rd r;
         is_priv_wr_allow := perm_priv_wr r;
         is_unpriv_rd_allow := perm_unpriv_rd r;
         is_unpriv_wr_allow := perm_unpriv_wr r |}
  | None => mem_attr_invalid
  end.

(** Modelled from the spec (4.2): the bodies of the two resolvers; each owns
    its table, [is_mpu_enabled] is always false. *)
Definition tfm_get_secure_mem_region_attr (p s : Z) : mem_attr_info_t :=
  resolve_mem_attr secure_perm_table p s.

Definition tfm_get_ns_mem_region_attr (p s : Z) : mem_attr_info_t :=
  resolve_mem_attr ns_perm_table p s.

Definition flag_set (flags bit : Z) : bool := negb (Z.land flags bit =? 0).

(** A non-secure check is requested when AU_NONSECURE or MPU_NONSECURE is set. *)
Definition ns_requested (flags : Z) : bool := flag_set flags MEM_CHECK_NONSECURE.

(** Step 3 of 4.3: every requested permission bit needs its capability, at
    the privilege level selected by MPU_UNPRIV. *)
Definition mem_attr_check (m : mem_attr_info_t) (flags : Z) : bool :=
  let unpriv := flag_set flags MEM_CHECK_MPU_UNPRIV in
  let rd := if unpriv then is_unpriv_rd_allow m else is_priv_rd_allow m in
  let wr := if unpriv then is_unpriv_wr_allow m else is_priv_wr_allow m in
  (if flag_set flags MEM_CHECK_MPU_READWRITE then rd && wr else true) &&
  (if flag_set flags MEM_CHECK_MPU_READ then rd else true).

(** Modelled from the spec (4.3), with the return codes of the header
    ("SPM_SUCCESS if the access is allowed, SPM_ERROR_GENERIC otherwise"):
    the body of [tfm_has_access_to_region]. *)
Definition tfm_has_access_to_region (p s flags : Z) : spm_result :=
  if mem_range_malformed p s then SPM_ERROR_GENERIC
  else
    let ns := ns_requested flags in
    let sec_ok :=
      if ns then
        let a := tfm_get_mem_region_security_attr p s in
        sec_is_valid a && negb (sec_is_secure a)
      else true in
    if negb sec_ok then SPM_ERROR_GENERIC
    else
      let m := if ns then tfm_get_ns_mem_region_attr p s
               else tfm_get_secure_mem_region_attr p s in
      if negb (is_valid m) then SPM_ERROR_GENERIC
      else if mem_attr_check m flags then SPM_SUCCESS
      else SPM_ERROR_GENERIC.

End Layout.

(** ** Non-secure client ID registry *)

(** A slot of [ns_mailbox_client_id_info[]]: its interrupt source, its
    client ID range and its owner ([CLIENT_ID_OWNER_MAGIC] when unregistered). *)
Record client_id_range := {
  irq_source : Z;
  id_low : Z;
  id_high : Z;
  owner : Z
}.

Definition set_owner (c : client_id_range) (o : Z) : client_id_range :=
  {| irq_source := irq_source c; id_low := id_low c; id_high := id_high c;
     owner := o |}.

Definition owner_invalid (o : Z) : bool :=
  (o =? NULL) || (o =? CLIENT_ID_OWNER_MAGIC).

Definition slot_bound (c : client_id_range) : bool :=
  negb (owner c =? CLIENT_ID_OWNER_MAGIC).

(** The outcomes of registration named by the spec (4.4). *)
Inductive reg_status :=
| REG_OK
| REG_INVALID_OWNER
| REG_NOT_FOUND
| REG_ALREADY_REGISTERED.

(** The slot whose static [irq_source] matches: the first one. *)
Fixpoint lookup_source (irq : Z) (tbl : list client_id_range)
    : option client_id_range :=
  match tbl with
  | [] => None
  | c :: tl => if irq_source c =? irq then Some c else lookup_source irq tl
  end.

Fixpoint register_slot (o irq : Z) (tbl : list client_id_range)
    : reg_status * list client_id_range :=
  match tbl with
  | [] => (REG_NOT_FOUND, [])
  | c :: tl =>
      if irq_source c =? irq then
        if slot_bound c then (REG_ALREADY_REGISTERED, c :: tl)
        else (REG_OK, set_owner c o :: tl)
      else let '(st, tl') := register_slot o irq tl in (st, c :: tl')
  end.

(** Modelled from the spec (4.4): the body of
    [tfm_multi_core_register_client_id_range]; the owner is checked first,
    then the matching slot, then its owner. *)
Definition register_client_id_range (o irq : Z) (tbl : list client_id_range)
    : reg_status * list client_id_range :=
  if owner_invalid o then (REG_INVALID_OWNER, tbl) else register_slot o irq tbl.

(** The return codes of the header: "SPM_ERROR_BAD_PARAMETERS if owner is
    null. SPM_ERROR_GENERIC otherwise." *)
Definition reg_status_code (o : Z) (st : reg_status) : spm_result :=
  match st with
  | REG_OK => SPM_SUCCESS
  | REG_INVALID_OWNER =>
      if o =? NULL then SPM_ERROR_BAD_PARAMETERS else SPM_ERROR_GENERIC
  | REG_NOT_FOUND | REG_ALREADY_REGISTERED => SPM_ERROR_GENERIC
  end.

Definition tfm_multi_core_register_client_id_range (o irq : Z)
    (tbl : list client_id_range) : spm_result * list client_id_range :=
  let '(st, tbl') := register_client_id_range o irq tbl in
  (reg_status_code o st, tbl').

(** One registration call, from any owner for any source. *)
Inductive registry_step : list client_id_range -> list client_id_range -> Prop :=
| registry_step_register o irq tbl :
    registry_step tbl (snd (register_client_id_range o irq tbl)).

Definition registry_reachable := clos_refl_trans_1n _ registry_step.

(** The table as configured at build time: every slot unregistered. *)
Definition registry_initial (tbl : list client_id_range) : Prop :=
  Forall (fun c => owner c = CLIENT_ID_OWNER_MAGIC) tbl.

Definition bound_slots_for (irq : Z) (tbl : list client_id_range) : nat :=
  length (filter (fun c => (irq_source c =? irq) && slot_bound c) tbl).

(** int32_t wrap-around. *)
Definition wrap_int32 (z : Z) : Z := (z + 2 ^ 31) mod 2 ^ 32 - 2 ^ 31.

Definition is_int32 (z : Z) : Prop := - 2 ^ 31 <= z < 2 ^ 31.

Inductive xlate_result :=
| XLATE_OK (client_id_out : Z)
| XLATE_INVALID_OWNER
| XLATE_NOT_FOUND
| XLATE_OUT_OF_RANGE.

Fixpoint lookup_owner (o : Z) (tbl : list client_id_range)
    : option client_id_range :=
  match tbl with
  | [] => None
  | c :: tl => if owner c =? o then Some c else lookup_owner o tl
  end.

Section Translate.

(** The offset of the translation scheme, a build-time choice the spec leaves
    to the implementation. *)
Variable client_id_offset : Z.

(** Modelled from the spec (4.4): the body of
    [tfm_multi_core_hal_client_id_translate], an offset scheme in [int32_t]
    over the range of the slot bound to [owner]. *)
Definition tfm_multi_core_hal_client_id_translate (o client_id_in : Z)
    (tbl : list client_id_range) : xlate_result :=
  if owner_invalid o then XLATE_INVALID_OWNER
  else match lookup_owner o tbl with
       | None => XLATE_NOT_FOUND
       | Some c =>
           if (id_low c <=? client_id_in) && (client_id_in <=? id_high c)
           then XLATE_OK (wrap_int32 (client_id_in + client_id_offset))
           else XLATE_OUT_OF_RANGE
       end.

(** The reverse mapping used for auditing. *)
Definition client_id_untranslate (client_id_out : Z) : Z :=
  wrap_int32 (client_id_out - client_id_offset).

End Translate.

End MultiCore.

(** ** Specification-side predicates *)

Module PowerSpec.
Import PowerControl.

(** [r'] is [r] with the two-bit MIN_PWR_STATE field (bits 30 and 31) set to
    PDCM_MIN_PWR_STATE_OFF and every other bit of the 32-bit register kept. *)
Definition sense_written_off (r r' : Z) : Prop :=
  Z.testbit r' 30 = false /\ Z.testbit r' 31 = false /\
  (forall n, 0 <= n < 32 -> n <> 30 -> n <> 31 -> Z.testbit r' n = Z.testbit r n).

(** The two-bit MIN_PWR_STATE field of a PDCM sense register. *)
Definition pdcm_field (r : Z) : Z :=
  Z.land (Z.shiftr r PDCM_PD_SENSE_MIN_PWR_STATE_Pos) 3.

(** [r'] holds state [s] in its MIN_PWR_STATE field and the bits 0..29 of [r]. *)
Definition sense_holds (r r' : Z) (s : PDCM_MIN_PWR_STATES) : Prop :=
  pdcm_field r' = pdcm_min_pwr_state_val s /\
  (forall n, 0 <= n < 30 -> Z.testbit r' n = Z.testbit r n).

(** A sysctrl power mode and the states it sets in PD_SYS, PD_VMR0, PD_VMR1. *)
Record br_sys_mode := {
  sys_mode_fn : mps4_corstone3xx_sysctrl_t -> mps4_corstone3xx_sysctrl_t;
  sys_mode_sys : PDCM_MIN_PWR_STATES;
  sys_mode_vmr0 : PDCM_MIN_PWR_STATES;
  sys_mode_vmr1 : PDCM_MIN_PWR_STATES
}.

Definition sets_sys_fields (m : br_sys_mode) : Prop :=
  forall sc : mps4_corstone3xx_sysctrl_t,
    sense_holds (pdcm_pd_sys_sense sc)
      (pdcm_pd_sys_sense (sys_mode_fn m sc)) (sys_mode_sys m) /\
    sense_holds (pdcm_pd_vmr0_sense sc)
      (pdcm_pd_vmr0_sense (sys_mode_fn m sc)) (sys_mode_vmr0 m) /\
    sense_holds (pdcm_pd_vmr1_sense sc)
      (pdcm_pd_vmr1_sense (sys_mode_fn m sc)) (sys_mode_vmr1 m).

Definition br_sys_modes : list br_sys_mode :=
  [ Build_br_sys_mode BR_SYS_SET_MIN_PWR_STATE_OFF
      PDCM_MIN_PWR_STATE_OFF PDCM_MIN_PWR_STATE_OFF PDCM_MIN_PWR_STATE_OFF;
    Build_br_sys_mode BR_SYS_SET_MIN_PWR_STATE_MEM_RET_OPMODE0
      PDCM_MIN_PWR_STATE_OFF PDCM_MIN_PWR_STATE_OFF PDCM_MIN_PWR_STATE_OFF;
    Build_br_sys_mode BR_SYS_SET_MIN_PWR_STATE_MEM_RET_OPMODE1
      PDCM_MIN_PWR_STATE_OFF PDCM_MIN_PWR_STATE_RET PDCM_MIN_PWR_STATE_OFF;
    Build_br_sys_mode BR_SYS_SET_MIN_PWR_STATE_MEM_RET_OPMODE2
      PDCM_MIN_PWR_STATE_OFF PDCM_MIN_PWR_STATE_OFF PDCM_MIN_PWR_STATE_RET;
    Build_br_sys_mode BR_SYS_SET_MIN_PWR_STATE_MEM_RET_OPMODE3
      PDCM_MIN_PWR_STATE_OFF PDCM_MIN_PWR_STATE_RET PDCM_MIN_PWR_STATE_RET;
    Build_br_sys_mode BR_SYS_SET_MIN_PWR_STATE_FULL_RET_OPMODE0
      PDCM_MIN_PWR_STATE_RET PDCM_MIN_PWR_STATE_OFF PDCM_MIN_PWR_STATE_OFF;
    Build_br_sys_mode BR_SYS_SET_MIN_PWR_STATE_FULL_RET_OPMODE1
      PDCM_MIN_PWR_STATE_RET PDCM_MIN_PWR_STATE_RET PDCM_MIN_PWR_STATE_OFF;
    Build_br_sys_mode BR_SYS_SET_MIN_PWR_STATE_FULL_RET_OPMODE2
      PDCM_MIN_PWR_STATE_RET PDCM_MIN_PWR_STATE_OFF PDCM_MIN_PWR_STATE_RET;
    Build_br_sys_mode BR_SYS_SET_MIN_PWR_STATE_FULL_RET_OPMODE3
      PDCM_MIN_PWR_STATE_RET PDCM_MIN_PWR_STATE_RET PDCM_MIN_PWR_STATE_RET;
    Build_br_sys_mode BR_SYS_SET_MIN_PWR_STATE_ON_OPMODE0
      PDCM_MIN_PWR_STATE_ON PDCM_MIN_PWR_STATE_OFF PDCM_MIN_PWR_STATE_OFF;
    Build_br_sys_mode BR_SYS_SET_MIN_PWR_STATE_ON_OPMODE1
      PDCM_MIN_PWR_STATE_ON PDCM_MIN_PWR_STATE_ON PDCM_MIN_PWR_STATE_OFF;
    Build_br_sys_mode BR_SYS_SET_MIN_PWR_STATE_ON_OPMODE2
      PDCM_MIN_PWR_STATE_ON PDCM_MIN_PWR_STATE_OFF PDCM_MIN_PWR_STATE_ON;
    Build_br_sys_mode BR_SYS_SET_MIN_PWR_STATE_ON_OPMODE3
      PDCM_MIN_PWR_STATE_ON PDCM_MIN_PWR_STATE_ON PDCM_MIN_PWR_STATE_ON ].

(** A mask of a 32-bit register. *)
Definition mask32 (m : Z) : Prop := 0 <= m < 2 ^ 32.

(** The CLPSTATE, ELPSTATE and RLPSTATE fields of CPDLPSTATE do not overlap. *)
Definition cpdlpstate_fields_disjoint (F : pwrmodctl_fields) : Prop :=
  Z.land (PWRMODCTL_CPDLPSTATE_CLPSTATE_Msk F)
         (PWRMODCTL_CPDLPSTATE_ELPSTATE_Msk F) = 0 /\
  Z.land (PWRMODCTL_CPDLPSTATE_CLPSTATE_Msk F)
         (PWRMODCTL_CPDLPSTATE_RLPSTATE_Msk F) = 0 /\
  Z.land (PWRMODCTL_CPDLPSTATE_ELPSTATE_Msk F)
         (PWRMODCTL_CPDLPSTATE_RLPSTATE_Msk F) = 0.

(** Every PWRMODCTL mask fits the 32-bit register. *)
Definition pwrmodctl_masks32 (F : pwrmodctl_fields) : Prop :=
  mask32 (PWRMODCTL_CPDLPSTATE_CLPSTATE_Msk F) /\
  mask32 (PWRMODCTL_CPDLPSTATE_ELPSTATE_Msk F) /\
  mask32 (PWRMODCTL_CPDLPSTATE_RLPSTATE_Msk F) /\
  mask32 (PWRMODCTL_DPDLPSTATE_DLPSTATE_Msk F).

(** Two-bit fields at bits 0, 4 and 8 of CPDLPSTATE and at bit 0 of
    DPDLPSTATE, an instance of the field layout. *)
Definition example_pwrmodctl_fields : pwrmodctl_fields :=
  {| PWRMODCTL_CPDLPSTATE_CLPSTATE_Pos := 0;
     PWRMODCTL_CPDLPSTATE_CLPSTATE_Msk := Z.shiftl 3 0;
     PWRMODCTL_CPDLPSTATE_ELPSTATE_Pos := 4;
     PWRMODCTL_CPDLPSTATE_ELPSTATE_Msk := Z.shiftl 3 4;
     PWRMODCTL_CPDLPSTATE_RLPSTATE_Pos := 8;
     PWRMODCTL_CPDLPSTATE_RLPSTATE_Msk := Z.shiftl 3 8;
     PWRMODCTL_DPDLPSTATE_DLPSTATE_Pos := 0;
     PWRMODCTL_DPDLPSTATE_DLPSTATE_Msk := Z.shiftl 3 0 |}.

(** A CPU0 power mode and the states it sets for core, EPU, RAM and TCM. *)
Record br_cpu0_mode := {
  cpu0_mode_fn : pwrmodctl_fields -> cpu0_power_regs -> cpu0_power_regs;
  cpu0_mode_core : CPU_MIN_PWR_STATES;
  cpu0_mode_epu : CPU_MIN_PWR_STATES;
  cpu0_mode_ram : CPU_MIN_PWR_STATES;
  cpu0_mode_tcm : PDCM_MIN_PWR_STATES
}.

(** Bit [n] of CPDLPSTATE after writing [c], [e], [r] into the CLPSTATE,
    ELPSTATE and RLPSTATE fields of [old]. *)
Definition cpdlpstate_bit (F : pwrmodctl_fields) (c e r : CPU_MIN_PWR_STATES)
    (old n : Z) : bool :=
  if Z.testbit (PWRMODCTL_CPDLPSTATE_CLPSTATE_Msk F) n then
    Z.testbit (Z.shiftl (cpu_min_pwr_state_val c)
                 (PWRMODCTL_CPDLPSTATE_CLPSTATE_Pos F)) n
  else if Z.testbit (PWRMODCTL_CPDLPSTATE_ELPSTATE_Msk F) n then
    Z.testbit (Z.shiftl (cpu_min_pwr_state_val e)
                 (PWRMODCTL_CPDLPSTATE_ELPSTATE_Pos F)) n
  else if Z.testbit (PWRMODCTL_CPDLPSTATE_RLPSTATE_Msk F) n then
    Z.testbit (Z.shiftl (cpu_min_pwr_state_val r)
                 (PWRMODCTL_CPDLPSTATE_RLPSTATE_Pos F)) n
  else Z.testbit old n.

Definition sets_cpu0_fields (F : pwrmodctl_fields) (m : br_cpu0_mode) : Prop :=
  forall st : cpu0_power_regs,
    let st' := cpu0_mode_fn m F st in
    (forall n, 0 <= n < 32 ->
       Z.testbit (CPDLPSTATE (pwrmodctl st')) n =
       cpdlpstate_bit F (cpu0_mode_core m) (cpu0_mode_epu m) (cpu0_mode_ram m)
         (CPDLPSTATE (pwrmodctl st)) n) /\
    DPDLPSTATE (pwrmodctl st') = DPDLPSTATE (pwrmodctl st) /\
    Z.testbit (cpupwrcfg (pwrctrl st')) CPUPWRCFG_TCM_MIN_PWR_STATE_Pos =
      match cpu0_mode_tcm m with PDCM_MIN_PWR_STATE_RET => true | _ => false end /\
    (forall n, 0 <= n < 32 -> n <> CPUPWRCFG_TCM_MIN_PWR_STATE_Pos ->
       Z.testbit (cpupwrcfg (pwrctrl st')) n = Z.testbit (cpupwrcfg (pwrctrl st)) n).

Definition br_cpu0_modes : list br_cpu0_mode :=
  [ Build_br_cpu0_mode BR_CPU0_SET_MIN_PWR_STATE_OFF CPU_MIN_PWR_STATE_OFF
      CPU_MIN_PWR_STATE_OFF CPU_MIN_PWR_STATE_OFF PDCM_MIN_PWR_STATE_OFF;
    Build_br_cpu0_mode BR_CPU0_SET_MIN_PWR_STATE_MEM_RET CPU_MIN_PWR_STATE_OFF
      CPU_MIN_PWR_STATE_OFF CPU_MIN_PWR_STATE_RET PDCM_MIN_PWR_STATE_RET;
    Build_br_cpu0_mode BR_CPU0_SET_MIN_PWR_STATE_MEM_RET_NOCACHE
      CPU_MIN_PWR_STATE_OFF CPU_MIN_PWR_STATE_OFF CPU_MIN_PWR_STATE_OFF
      PDCM_MIN_PWR_STATE_RET;
    Build_br_cpu0_mode BR_CPU0_SET_MIN_PWR_STATE_LOGIC_RET CPU_MIN_PWR_STATE_RET
      CPU_MIN_PWR_STATE_OFF CPU_MIN_PWR_STATE_RET PDCM_MIN_PWR_STATE_RET;
    Build_br_cpu0_mode BR_CPU0_SET_MIN_PWR_STATE_LOGIC_RET_NOCACHE
      CPU_MIN_PWR_STATE_RET CPU_MIN_PWR_STATE_OFF CPU_MIN_PWR_STATE_OFF
      PDCM_MIN_PWR_STATE_RET;
    Build_br_cpu0_mode BR_CPU0_SET_MIN_PWR_STATE_FULL_RET CPU_MIN_PWR_STATE_RET
      CPU_MIN_PWR_STATE_RET CPU_MIN_PWR_STATE_RET PDCM_MIN_PWR_STATE_RET;
    Build_br_cpu0_mode BR_CPU0_SET_MIN_PWR_STATE_FULL_RET_NOCACHE
      CPU_MIN_PWR_STATE_RET CPU_MIN_PWR_STATE_RET CPU_MIN_PWR_STATE_OFF
      PDCM_MIN_PWR_STATE_RET;
    Build_br_cpu0_mode BR_CPU0_SET_MIN_PWR_STATE_EPU_OFF CPU_MIN_PWR_STATE_ON
      CPU_MIN_PWR_STATE_OFF CPU_MIN_PWR_STATE_ON PDCM_MIN_PWR_STATE_ON;
    Build_br_cpu0_mode BR_CPU0_SET_MIN_PWR_STATE_EPU_OFF_NOCACHE
      CPU_MIN_PWR_STATE_ON CPU_MIN_PWR_STATE_OFF CPU_MIN_PWR_STATE_OFF
      PDCM_MIN_PWR_STATE_ON;
    Build_br_cpu0_mode BR_CPU0_SET_MIN_PWR_STATE_FUNC_RET CPU_MIN_PWR_STATE_ON
      CPU_MIN_PWR_STATE_RET CPU_MIN_PWR_STATE_ON PDCM_MIN_PWR_STATE_ON;
    Build_br_cpu0_mode BR_CPU0_SET_MIN_PWR_STATE_FUNC_RET_NOCACHE
      CPU_MIN_PWR_STATE_ON CPU_MIN_PWR_STATE_RET CPU_MIN_PWR_STATE_OFF
      PDCM_MIN_PWR_STATE_ON;
    Build_br_cpu0_mode BR_CPU0_SET_MIN_PWR_STATE_ON CPU_MIN_PWR_STATE_ON
      CPU_MIN_PWR_STATE_ON CPU_MIN_PWR_STATE_ON PDCM_MIN_PWR_STATE_ON;
    Build_br_cpu0_mode BR_CPU0_SET_MIN_PWR_STATE_ON_NOCACHE CPU_MIN_PWR_STATE_ON
      CPU_MIN_PWR_STATE_ON CPU_MIN_PWR_STATE_OFF PDCM_MIN_PWR_STATE_ON ].

End PowerSpec.

Module MultiSpec.
Import MultiCore.

(** Well-formedness of the static layout (3. and glossary): regions do not
    wrap the address space and are pairwise non-overlapping. *)
Definition layout_no_wrap (L : list mem_region) : Prop :=
  Forall (fun r => 0 <= region_base r /\ 0 <= region_size r /\
                   region_limit r <= UINTPTR_MAX) L.

Definition regions_disjoint (r1 r2 : mem_region) : Prop :=
  region_limit r1 <= region_base r2 \/ region_limit r2 <= region_base r1.

Definition layout_disjoint (L : list mem_region) : Prop :=
  forall i j r1 r2, i <> j -> nth_error L i = Some r1 -> nth_error L j = Some r2 ->
    regions_disjoint r1 r2.

(** [[p, p+s)] shares at least one byte with region [r]. *)
Definition range_overlaps (p s : Z) (r : mem_region) : Prop :=
  region_base r < p + s /\ p < region_limit r.

(** A layout with one secure and one non-secure region, the secure one being
    the region [[0x2000_0000, 0x2000_1000)] of the spec's boundary scenario. *)
Definition demo_s_region : mem_region :=
  {| region_base := 0x20000000; region_size := 0x1000; region_secure := true |}.
Definition demo_ns_region : mem_region :=
  {| region_base := 0x28000000; region_size := 0x1000; region_secure := false |}.
Definition demo_layout : list mem_region := [demo_s_region; demo_ns_region].

Definition demo_perm (base size : Z) : perm_region :=
  {| perm_base := base; perm_size := size; perm_xn := true;
     perm_priv_rd := true; perm_priv_wr := true;
     perm_unpriv_rd := true; perm_unpriv_wr := true |}.

(** Each resolver describes the memory of its own world. *)
Definition demo_secure_perms : list perm_region := [demo_perm 0x20000000 0x1000].
Definition demo_ns_perms : list perm_region := [demo_perm 0x28000000 0x1000].

(** Every bound slot is the first slot of its interrupt source. *)
Fixpoint later_slots_unbound (tbl : list client_id_range) : Prop :=
  match tbl with
  | [] => True
  | c :: tl =>
      Forall (fun d => irq_source d = irq_source c ->
                       owner d = CLIENT_ID_OWNER_MAGIC) tl /\
      later_slots_unbound tl
  end.

(** Two owners (non-null, not the sentinel) and a table with the slot of the
    spec's scenario [{irq_source=5, id_low=1, id_high=4}] and a second slot. *)
Definition owner_A : Z := 0x30001000.
Definition owner_B : Z := 0x30002000.

Definition unregistered_slot (irq lo hi : Z) : client_id_range :=
  {| irq_source := irq; id_low := lo; id_high := hi;
     owner := CLIENT_ID_OWNER_MAGIC |}.

Definition demo_registry : list client_id_range :=
  [unregistered_slot 5 1 4; unregistered_slot 6 10 20].

End MultiSpec.

(** ** Power control proofs *)

Module PowerProofs.
Import PowerControl PowerSpec.

Lemma u32_not_testbit (x n : Z) :
  0 <= n < 32 -> Z.testbit (u32_not x) n = negb (Z.testbit x n).
Proof.
  intros Hn. unfold u32_not, MASK32.
  rewrite Z.lxor_spec.
  replace (2 ^ 32 - 1) with (Z.ones 32) by reflexivity.
  rewrite Z.ones_spec_low by lia.
  destruct (Z.testbit x n); reflexivity.
Qed.

Lemma set_field_testbit (reg v pos msk n : Z) :
  0 <= n < 32 ->
  Z.testbit (set_field reg v pos msk) n =
  if Z.testbit msk n then Z.testbit (Z.shiftl v pos) n else Z.testbit reg n.
Proof.
  intros Hn. unfold set_field.
  rewrite Z.lor_spec, !Z.land_spec, u32_not_testbit by exact Hn.
  destruct (Z.testbit msk n), (Z.testbit reg n), (Z.testbit (Z.shiftl v pos) n);
    reflexivity.
Qed.

Lemma pdcm_sense_update_off (r : Z) :
  sense_written_off r (pdcm_sense_update r PDCM_MIN_PWR_STATE_OFF).
Proof.
  unfold sense_written_off, pdcm_sense_update.
  split; [| split].
  - rewrite set_field_testbit by lia. reflexivity.
  - rewrite set_field_testbit by lia. reflexivity.
  - intros n Hn H30 H31.
    rewrite set_field_testbit by exact Hn.
    unfold PDCM_PD_SENSE_MIN_PWR_STATE_Msk, PDCM_PD_SENSE_MIN_PWR_STATE_Pos.
    rewrite Z.shiftl_spec_low by lia. reflexivity.
Qed.

(** Claim C9: on CPUPWRCFG the one-bit TCM_MIN_PWR_STATE mask truncates the
    value 2 of PDCM_MIN_PWR_STATE_ON to 0, so writing ON and writing OFF give
    the same register for every initial value; only RET sets bit 4. *)
Theorem tcm_min_pwr_state_on_same_as_off :
  forall pc : cpu0_pwrctrl_t,
    PD_CPU0_TCM_SET_MIN_PWR_STATE PDCM_MIN_PWR_STATE_ON pc =
    PD_CPU0_TCM_SET_MIN_PWR_STATE PDCM_MIN_PWR_STATE_OFF pc /\
    (forall st : PDCM_MIN_PWR_STATES,
        Z.testbit (cpupwrcfg (PD_CPU0_TCM_SET_MIN_PWR_STATE st pc))
          CPUPWRCFG_TCM_MIN_PWR_STATE_Pos =
        match st with PDCM_MIN_PWR_STATE_RET => true | _ => false end).
Proof.
  intros pc. split.
  - reflexivity.
  - intros st. unfold PD_CPU0_TCM_SET_MIN_PWR_STATE; cbn [cpupwrcfg].
    rewrite set_field_testbit by (unfold CPUPWRCFG_TCM_MIN_PWR_STATE_Pos; lia).
    destruct st; reflexivity.
Qed.

(** Claim C10: BR_SYS_SET_MIN_PWR_STATE_OFF and
    BR_SYS_SET_MIN_PWR_STATE_MEM_RET_OPMODE0 give the same final state from
    every state of the sense registers: MIN_PWR_STATE set to OFF in
    PDCM_PD_SYS_SENSE, PDCM_PD_VMR0_SENSE and PDCM_PD_VMR1_SENSE, all other bits
    kept. *)
Theorem br_sys_off_equals_mem_ret_opmode0 :
  forall sc : mps4_corstone3xx_sysctrl_t,
    BR_SYS_SET_MIN_PWR_STATE_OFF sc = BR_SYS_SET_MIN_PWR_STATE_MEM_RET_OPMODE0 sc /\
    sense_written_off (pdcm_pd_sys_sense sc)
      (pdcm_pd_sys_sense (BR_SYS_SET_MIN_PWR_STATE_OFF sc)) /\
    sense_written_off (pdcm_pd_vmr0_sense sc)
      (pdcm_pd_vmr0_sense (BR_SYS_SET_MIN_PWR_STATE_OFF sc)) /\
    sense_written_off (pdcm_pd_vmr1_sense sc)
      (pdcm_pd_vmr1_sense (BR_SYS_SET_MIN_PWR_STATE_OFF sc)).
Proof.
  intros [sys vmr0 vmr1].
  split; [reflexivity |].
  split; [| split]; apply pdcm_sense_update_off.
Qed.

End PowerProofs.

(** ** Access check proofs *)

Module AccessProofs.
Import MultiCore MultiSpec.

Lemma flag_set_lor (f g bit : Z) :
  flag_set (Z.lor f g) bit = flag_set f bit || flag_set g bit.
Proof.
  unfold flag_set. rewrite Z.land_lor_distr_l, <- negb_andb. f_equal.
  apply eq_iff_eq_true. rewrite andb_true_iff, !Z.eqb_eq.
  apply Z.lor_eq_0_iff.
Qed.

Lemma land_pow2_distinct (b c : Z) :
  0 <= b -> 0 <= c -> b <> c -> Z.land (2 ^ b) (2 ^ c) = 0.
Proof.
  intros Hb Hc Hbc. apply Z.bits_inj'. intros n Hn.
  rewrite Z.land_spec, !Z.pow2_bits_eqb, Z.bits_0 by assumption.
  destruct (Z.eqb_spec b n), (Z.eqb_spec c n); subst; try reflexivity.
  congruence.
Qed.

Lemma flag_set_bit_other (b c : Z) :
  0 <= b -> 0 <= c -> b <> c -> flag_set (Z.shiftl 1 b) (Z.shiftl 1 c) = false.
Proof.
  intros Hb Hc Hbc. unfold flag_set.
  rewrite !Z.shiftl_1_l, land_pow2_distinct by assumption. reflexivity.
Qed.

(** The decision of [tfm_has_access_to_region], step by step. *)
Lemma access_success_iff (L : list mem_region) (S N : list perm_region)
    (p s flags : Z) :
  tfm_has_access_to_region L S N p s flags = SPM_SUCCESS <->
  mem_range_malformed p s = false /\
  (ns_requested flags = true ->
     sec_is_valid (tfm_get_mem_region_security_attr L p s) = true /\
     sec_is_secure (tfm_get_mem_region_security_attr L p s) = false) /\
  is_valid (if ns_requested flags then tfm_get_ns_mem_region_attr N p s
            else tfm_get_secure_mem_region_attr S p s) = true /\
  mem_attr_check (if ns_requested flags then tfm_get_ns_mem_region_attr N p s
                  else tfm_get_secure_mem_region_attr S p s) flags = true.
Proof.
  unfold tfm_has_access_to_region.
  destruct (mem_range_malformed p s).
  { split; [discriminate | intros [H _]; discriminate]. }
  destruct (ns_requested flags);
  destruct (tfm_get_mem_region_security_attr L p s) as [v sec]; cbn;
  [ destruct (tfm_get_ns_mem_region_attr N p s) as [? valid ? ? ? ? ?]
  | destruct (tfm_get_secure_mem_region_attr S p s) as [? valid ? ? ? ? ?] ];
  cbn; destruct valid; cbn;
  [ destruct v, sec | destruct v, sec | | ]; cbn;
  repeat match goal with
         | |- context [if ?b then _ else _] => destruct b eqn:?
         end;
  split; intuition congruence.
Qed.

(** The flags enter the decision only through the non-secure request and the
    MPU_READWRITE, MPU_UNPRIV and MPU_READ bits. *)
Lemma access_flags_congruence (L : list mem_region) (S N : list perm_region)
    (p s f g : Z) :
  ns_requested f = ns_requested g ->
  flag_set f MEM_CHECK_MPU_READWRITE = flag_set g MEM_CHECK_MPU_READWRITE ->
  flag_set f MEM_CHECK_MPU_UNPRIV = flag_set g MEM_CHECK_MPU_UNPRIV ->
  flag_set f MEM_CHECK_MPU_READ = flag_set g MEM_CHECK_MPU_READ ->
  tfm_has_access_to_region L S N p s f = tfm_has_access_to_region L S N p s g.
Proof.
  intros Hns Hrw Hun Hrd. unfold tfm_has_access_to_region, mem_attr_check.
  rewrite Hns, Hrw, Hun, Hrd. reflexivity.
Qed.

Lemma mem_attr_check_lor_bit (m : mem_attr_info_t) (flags b : Z) :
  0 <= b -> b <> 2 ->
  mem_attr_check m (Z.lor flags (Z.shiftl 1 b)) = true ->
  mem_attr_check m flags = true.
Proof.
  intros Hb Hb2. unfold mem_attr_check.
  rewrite !flag_set_lor.
  assert (Hu : flag_set (Z.shiftl 1 b) MEM_CHECK_MPU_UNPRIV = false)
    by (apply flag_set_bit_other; lia).
  rewrite Hu, orb_false_r.
  destruct (flag_set flags MEM_CHECK_MPU_UNPRIV),
           (flag_set flags MEM_CHECK_MPU_READWRITE),
           (flag_set flags MEM_CHECK_MPU_READ),
           (flag_set (Z.shiftl 1 b) MEM_CHECK_MPU_READWRITE),
           (flag_set (Z.shiftl 1 b) MEM_CHECK_MPU_READ); cbn;
    destruct (is_unpriv_rd_allow m), (is_unpriv_wr_allow m),
             (is_priv_rd_allow m), (is_priv_wr_allow m); cbn; congruence.
Qed.

(** Claim C7: MEM_CHECK_NONSECURE is AU_NONSECURE | MPU_NONSECURE (18), and a
    check requesting NONSECURE succeeds exactly when the checks requesting
    AU_NONSECURE and MPU_NONSECURE both succeed, for every range and every
    other requested bits. *)
Theorem nonsecure_flag_is_conjunction :
  MEM_CHECK_NONSECURE = Z.lor MEM_CHECK_AU_NONSECURE MEM_CHECK_MPU_NONSECURE /\
  MEM_CHECK_NONSECURE = 18 /\
  forall (L : list mem_region) (S N : list perm_region) (p s flags : Z),
    tfm_has_access_to_region L S N p s (Z.lor flags MEM_CHECK_NONSECURE)
      = SPM_SUCCESS <->
    tfm_has_access_to_region L S N p s (Z.lor flags MEM_CHECK_AU_NONSECURE)
      = SPM_SUCCESS /\
    tfm_has_access_to_region L S N p s (Z.lor flags MEM_CHECK_MPU_NONSECURE)
      = SPM_SUCCESS.
Proof.
  split; [reflexivity | split; [reflexivity |]].
  intros L S N p s flags.
  assert (Hau : tfm_has_access_to_region L S N p s (Z.lor flags MEM_CHECK_NONSECURE)
                = tfm_has_access_to_region L S N p s (Z.lor flags MEM_CHECK_AU_NONSECURE)).
  { apply access_flags_congruence; unfold ns_requested; rewrite !flag_set_lor;
      reflexivity. }
  assert (Hmpu : tfm_has_access_to_region L S N p s (Z.lor flags MEM_CHECK_NONSECURE)
                 = tfm_has_access_to_region L S N p s (Z.lor flags MEM_CHECK_MPU_NONSECURE)).
  { apply access_flags_congruence; unfold ns_requested; rewrite !flag_set_lor;
      reflexivity. }
  rewrite <- Hau, <- Hmpu. tauto.
Qed.

(** Counterexample to claim C1: a denial of a well-formed request (a
    non-secure read-write check on secure memory) and the rejection of a
    malformed, overflowing range return the same code SPM_ERROR_GENERIC, so
    no decoding of the result separates a Denied verdict from an error. *)
Lemma access_denial_same_code_as_error :
  mem_range_malformed 0x20000000 0x100 = false /\
  tfm_has_access_to_region demo_layout demo_secure_perms demo_ns_perms
    0x20000000 0x100 (Z.lor MEM_CHECK_MPU_READWRITE MEM_CHECK_MPU_NONSECURE)
    = SPM_ERROR_GENERIC /\
  mem_range_malformed 0xFFFFFF00 0x200 = true /\
  tfm_has_access_to_region demo_layout demo_secure_perms demo_ns_perms
    0xFFFFFF00 0x200 (Z.lor MEM_CHECK_MPU_READWRITE MEM_CHECK_MPU_NONSECURE)
    = SPM_ERROR_GENERIC /\
  (forall (A : Type) (decode : spm_result -> A),
     decode (tfm_has_access_to_region demo_layout demo_secure_perms demo_ns_perms
               0x20000000 0x100
               (Z.lor MEM_CHECK_MPU_READWRITE MEM_CHECK_MPU_NONSECURE)) =
     decode (tfm_has_access_to_region demo_layout demo_secure_perms demo_ns_perms
               0xFFFFFF00 0x200
               (Z.lor MEM_CHECK_MPU_READWRITE MEM_CHECK_MPU_NONSECURE))).
Proof.
  split; [reflexivity |]. split; [vm_compute; reflexivity |].
  split; [reflexivity |]. split; [vm_compute; reflexivity |].
  intros A decode. vm_compute. reflexivity.
Qed.

(** Claim C1 (as amended): [tfm_has_access_to_region] returns a result code
    only, SPM_SUCCESS when the access is allowed and SPM_ERROR_GENERIC for every
    other outcome, a denial as well as a malformed (zero-size or overflowing)
    range. *)
Theorem access_result_is_code_only :
  forall (L : list mem_region) (S N : list perm_region) (p s flags : Z),
    (tfm_has_access_to_region L S N p s flags = SPM_SUCCESS \/
     tfm_has_access_to_region L S N p s flags = SPM_ERROR_GENERIC) /\
    (mem_range_malformed p s = true ->
     tfm_has_access_to_region L S N p s flags = SPM_ERROR_GENERIC).
Proof.
  intros L S N p s flags. unfold tfm_has_access_to_region.
  split.
  - destruct (mem_range_malformed p s); [right; reflexivity |].
    repeat match goal with
           | |- context [if ?b then _ else _] => destruct b
           end; auto.
  - intros H. rewrite H. reflexivity.
Qed.

End AccessProofs.

Module AccessMonotonicity.
Import MultiCore MultiSpec AccessProofs.

(** Counterexample to claim C4: a secure-world read of non-secure memory is
    denied (the secure resolver has no entry for it), while the same read with
    the extra bit MPU_NONSECURE is checked by the non-secure resolver and is
    allowed. *)
Lemma access_denial_lifted_by_nonsecure_bit :
  tfm_has_access_to_region demo_layout demo_secure_perms demo_ns_perms
    0x28000000 0x100 MEM_CHECK_MPU_READ = SPM_ERROR_GENERIC /\
  tfm_has_access_to_region demo_layout demo_secure_perms demo_ns_perms
    0x28000000 0x100 (Z.lor MEM_CHECK_MPU_READ MEM_CHECK_MPU_NONSECURE)
    = SPM_SUCCESS.
Proof. split; vm_compute; reflexivity. Qed.

(** Claim C4 (as amended): a denial stays a denial when an extra flag bit is
    added, unless that bit is MPU_UNPRIV (which switches to the unprivileged
    permissions) or turns a secure check into a non-secure one (AU_NONSECURE or
    MPU_NONSECURE added to flags that have neither). *)
Theorem access_denial_kept_by_extra_bit :
  forall (L : list mem_region) (S N : list perm_region) (p s flags b : Z),
    0 <= b -> b <> 2 ->
    ns_requested (Z.lor flags (Z.shiftl 1 b)) = ns_requested flags ->
    tfm_has_access_to_region L S N p s flags <> SPM_SUCCESS ->
    tfm_has_access_to_region L S N p s (Z.lor flags (Z.shiftl 1 b))
      <> SPM_SUCCESS.
Proof.
  intros L S N p s flags b Hb Hb2 Hns Hden Hok. apply Hden.
  apply access_success_iff in Hok. apply access_success_iff.
  rewrite Hns in Hok. destruct Hok as (Hm & Hsec & Hv & Hc).
  split; [exact Hm |]. split; [exact Hsec |]. split; [exact Hv |].
  exact (mem_attr_check_lor_bit _ flags b Hb Hb2 Hc).
Qed.

Lemma access_denial_kept_by_extra_bit_witness :
  tfm_has_access_to_region demo_layout demo_secure_perms demo_ns_perms
    0x28000000 0x100 MEM_CHECK_MPU_READ <> SPM_SUCCESS /\
  tfm_has_access_to_region demo_layout demo_secure_perms demo_ns_perms
    0x28000000 0x100 (Z.lor MEM_CHECK_MPU_READ (Z.shiftl 1 0)) <> SPM_SUCCESS.
Proof.
  split.
  - vm_compute. discriminate.
  - apply (access_denial_kept_by_extra_bit demo_layout demo_secure_perms
             demo_ns_perms 0x28000000 0x100 MEM_CHECK_MPU_READ 0).
    + lia.
    + lia.
    + reflexivity.
    + vm_compute. discriminate.
Defined.

End AccessMonotonicity.

(** ** Region classifier proofs *)

Module ClassifierProofs.
Import MultiCore MultiSpec.

Lemma malformed_false_iff (p s : Z) :
  mem_range_malformed p s = false <-> p <= UINTPTR_MAX - s /\ s <> 0.
Proof.
  unfold mem_range_malformed.
  rewrite orb_false_iff, Z.gtb_ltb, Z.ltb_ge, Z.eqb_neq. reflexivity.
Qed.

Lemma in_range_true_iff (p s b l : Z) :
  in_range p s b l = true <->
  (p <= UINTPTR_MAX - s /\ s <> 0) /\ b <= p /\ p + s <= l.
Proof.
  rewrite <- malformed_false_iff.
  unfold in_range, check_address_range.
  destruct (mem_range_malformed p s).
  - split; [discriminate | intros [H _]; discriminate].
  - destruct (Z.leb_spec b p), (Z.leb_spec (p + s) l); cbn;
      split; intuition (try discriminate; try lia).
Qed.

Lemma find_mem_region_some (p s : Z) (L : list mem_region) (r : mem_region) :
  find_mem_region p s L = Some r ->
  exists j, nth_error L j = Some r /\
            in_range p s (region_base r) (region_limit r) = true.
Proof.
  induction L as [| r' L IH]; cbn; [discriminate |].
  destruct (in_range p s (region_base r') (region_limit r')) eqn:E.
  - intros H. injection H as <-. exists 0%nat. split; [reflexivity | exact E].
  - intros H. destruct (IH H) as (j & Hj & Hin). exists (S j). auto.
Qed.

Lemma find_mem_region_none (p s : Z) (L : list mem_region) :
  find_mem_region p s L = None ->
  forall j r, nth_error L j = Some r ->
    in_range p s (region_base r) (region_limit r) = false.
Proof.
  induction L as [| r' L IH]; cbn; intros H j r Hj.
  - destruct j; discriminate.
  - destruct (in_range p s (region_base r') (region_limit r')) eqn:E;
      [discriminate |].
    destruct j as [| j]; cbn in Hj.
    + injection Hj as <-. exact E.
    + exact (IH H j r Hj).
Qed.

Lemma find_mem_region_zero_size (p : Z) (L : list mem_region) :
  find_mem_region p 0 L = None.
Proof.
  induction L as [| r L IH]; cbn; [reflexivity |].
  unfold in_range, check_address_range, mem_range_malformed.
  rewrite orb_true_r. exact IH.
Qed.

Lemma demo_layout_no_wrap : layout_no_wrap demo_layout.
Proof.
  unfold layout_no_wrap, demo_layout, region_limit, UINTPTR_MAX, MASK32.
  repeat constructor; cbn; lia.
Qed.

Lemma demo_layout_disjoint : layout_disjoint demo_layout.
Proof.
  intros i j r1 r2 Hij H1 H2.
  destruct i as [| [| [| i]]]; cbn in H1; try discriminate;
  destruct j as [| [| [| j]]]; cbn in H2; try discriminate;
  try (exfalso; lia);
  injection H1 as <-; injection H2 as <-;
  unfold regions_disjoint, region_limit; cbn; lia.
Qed.

(** Counterexample to claim C2: the zero-size range at the base of the
    secure region satisfies [R.base <= p] and [p + s <= R.limit], yet a
    zero-size range is malformed and the classifier reports it invalid. *)
Lemma classify_zero_size_range_invalid :
  layout_no_wrap demo_layout /\ layout_disjoint demo_layout /\
  nth_error demo_layout 0 = Some demo_s_region /\
  region_base demo_s_region <= 0x20000000 /\
  0x20000000 + 0 <= region_limit demo_s_region /\
  sec_is_valid (tfm_get_mem_region_security_attr demo_layout 0x20000000 0) = false.
Proof.
  split; [exact demo_layout_no_wrap |].
  split; [exact demo_layout_disjoint |].
  split; [reflexivity |].
  unfold region_limit; cbn. split; [lia |]. split; [lia |].
  reflexivity.
Qed.

(** Claim C2 (as amended): over a layout whose regions do not wrap the
    address space and do not overlap, every range of non-zero size fully
    inside a region [R] is classified valid with [R]'s tag; every range that
    overlaps two regions, or none, is invalid; every zero-size range is
    invalid. *)
Theorem classify_contained_ranges :
  forall L : list mem_region,
    layout_no_wrap L -> layout_disjoint L ->
    (forall i R p s,
        nth_error L i = Some R -> 0 < s ->
        region_base R <= p -> p + s <= region_limit R ->
        tfm_get_mem_region_security_attr L p s =
        {| sec_is_valid := true; sec_is_secure := region_secure R |}) /\
    (forall p s, 0 <= s ->
        ((exists i j R1 R2, i <> j /\ nth_error L i = Some R1 /\
            nth_error L j = Some R2 /\
            range_overlaps p s R1 /\ range_overlaps p s R2) \/
         (forall R, In R L -> ~ range_overlaps p s R)) ->
        sec_is_valid (tfm_get_mem_region_security_attr L p s) = false) /\
    (forall p, sec_is_valid (tfm_get_mem_region_security_attr L p 0) = false).
Proof.
  intros L Hwf Hdis. split; [| split].
  - intros i R p s Hi Hs Hb Hl.
    assert (HR : In R L) by (eapply nth_error_In; eexact Hi).
    unfold layout_no_wrap in Hwf. rewrite Forall_forall in Hwf.
    destruct (Hwf R HR) as (HRb & HRs & HRl).
    assert (Hin : in_range p s (region_base R) (region_limit R) = true)
      by (apply in_range_true_iff; lia).
    unfold tfm_get_mem_region_security_attr.
    destruct (find_mem_region p s L) as [r |] eqn:E.
    + destruct (find_mem_region_some _ _ _ _ E) as (j & Hj & Hr).
      apply in_range_true_iff in Hr.
      destruct (Nat.eq_dec i j) as [<- | Hij].
      * rewrite Hi in Hj. injection Hj as <-. reflexivity.
      * destruct (Hdis i j R r Hij Hi Hj) as [Hd | Hd]; lia.
    + rewrite (find_mem_region_none _ _ _ E i R Hi) in Hin. discriminate.
  - intros p s Hs Hcase.
    unfold tfm_get_mem_region_security_attr.
    destruct (find_mem_region p s L) as [r |] eqn:E; [| reflexivity].
    exfalso.
    destruct (find_mem_region_some _ _ _ _ E) as (j & Hj & Hr).
    apply in_range_true_iff in Hr.
    destruct Hcase as [(i & i' & R1 & R2 & Hii & H1 & H2 & Ho1 & Ho2) | Hnone].
    + assert (Hji : j = i).
      { destruct (Nat.eq_dec j i) as [| Hne]; [assumption |].
        unfold range_overlaps in Ho1.
        destruct (Hdis j i r R1 Hne Hj H1); lia. }
      assert (Hji' : j = i').
      { destruct (Nat.eq_dec j i') as [| Hne]; [assumption |].
        unfold range_overlaps in Ho2.
        destruct (Hdis j i' r R2 Hne Hj H2); lia. }
      congruence.
    + apply (Hnone r); [eapply nth_error_In; exact Hj |].
      unfold range_overlaps. lia.
  - intros p. unfold tfm_get_mem_region_security_attr.
    rewrite find_mem_region_zero_size. reflexivity.
Qed.

Lemma classify_contained_ranges_witness :
  tfm_get_mem_region_security_attr demo_layout 0x20000000 0x800 =
  {| sec_is_valid := true; sec_is_secure := region_secure demo_s_region |} /\
  sec_is_valid (tfm_get_mem_region_security_attr demo_layout 0x10000000 0x100)
    = false.
Proof.
  destruct (classify_contained_ranges demo_layout demo_layout_no_wrap
              demo_layout_disjoint) as (H1 & H2 & _).
  split.
  - apply (H1 0%nat demo_s_region); [reflexivity | lia | cbn; lia |].
    unfold region_limit; cbn; lia.
  - apply H2; [lia |]. right.
    intros R [<- | [<- | []]]; unfold range_overlaps, region_limit; cbn; lia.
Defined.

End ClassifierProofs.

(** ** Client ID registry proofs *)

Module RegistryProofs.
Import MultiCore MultiSpec.

Lemma register_slot_unbound (o irq : Z) (tbl : list client_id_range)
    (c : client_id_range) :
  lookup_source irq tbl = Some c -> slot_bound c = false ->
  fst (register_slot o irq tbl) = REG_OK /\
  lookup_source irq (snd (register_slot o irq tbl)) = Some (set_owner c o).
Proof.
  induction tbl as [| d tl IH]; cbn; [discriminate |].
  destruct (irq_source d =? irq) eqn:E.
  - intros H Hb. injection H as <-. rewrite Hb. cbn. rewrite E. auto.
  - intros H Hb. destruct (register_slot o irq tl) as [st tl'] eqn:R.
    cbn. rewrite E. exact (IH H Hb).
Qed.

Lemma register_slot_bound (o irq : Z) (tbl : list client_id_range)
    (c : client_id_range) :
  lookup_source irq tbl = Some c -> slot_bound c = true ->
  register_slot o irq tbl = (REG_ALREADY_REGISTERED, tbl).
Proof.
  induction tbl as [| d tl IH]; cbn; [discriminate |].
  destruct (irq_source d =? irq) eqn:E.
  - intros H Hb. injection H as <-. rewrite Hb. reflexivity.
  - intros H Hb. rewrite (IH H Hb). reflexivity.
Qed.

(** A registration call, for any source, keeps a bound slot where it is. *)
Lemma register_keeps_bound_lookup (o irq' irq : Z)
    (tbl : list client_id_range) (c : client_id_range) :
  lookup_source irq tbl = Some c -> slot_bound c = true ->
  lookup_source irq (snd (register_client_id_range o irq' tbl)) = Some c.
Proof.
  intros H Hb. unfold register_client_id_range.
  destruct (owner_invalid o); [exact H |].
  revert H. induction tbl as [| d tl IH]; cbn; [discriminate |].
  intros H.
  destruct (irq_source d =? irq') eqn:E'.
  - destruct (slot_bound d) eqn:Bd; cbn; [exact H |].
    destruct (irq_source d =? irq) eqn:E.
    + injection H as <-. congruence.
    + exact H.
  - destruct (register_slot o irq' tl) as [st tl'] eqn:R. cbn.
    destruct (irq_source d =? irq) eqn:E; [exact H |].
    specialize (IH H). cbn in IH. exact IH.
Qed.

Lemma reachable_keeps_bound_lookup (tbl tbl' : list client_id_range)
    (irq : Z) (c : client_id_range) :
  registry_reachable tbl tbl' ->
  lookup_source irq tbl = Some c -> slot_bound c = true ->
  lookup_source irq tbl' = Some c.
Proof.
  intros Hr. induction Hr as [| t1 t2 t3 Hs Hr IH]; intros H Hb; [exact H |].
  apply IH; [| exact Hb].
  destruct Hs. apply register_keeps_bound_lookup; assumption.
Qed.

Lemma register_slot_in (o irq : Z) (tbl : list client_id_range)
    (d : client_id_range) :
  In d (snd (register_slot o irq tbl)) -> In d tbl \/ irq_source d = irq.
Proof.
  induction tbl as [| c tl IH]; cbn; [tauto |].
  destruct (irq_source c =? irq) eqn:E.
  - destruct (slot_bound c); cbn; [tauto |].
    intros [<- | H]; [right; cbn; apply Z.eqb_eq; exact E | tauto].
  - destruct (register_slot o irq tl) as [st tl'] eqn:R. cbn.
    intros [<- | H]; [tauto |].
    cbn in IH. destruct (IH H); tauto.
Qed.

Lemma register_keeps_later_unbound (o irq : Z) (tbl : list client_id_range) :
  later_slots_unbound tbl ->
  later_slots_unbound (snd (register_client_id_range o irq tbl)).
Proof.
  unfold register_client_id_range.
  destruct (owner_invalid o); [tauto |].
  induction tbl as [| c tl IH]; cbn; [tauto |].
  intros [Hf Htl].
  destruct (irq_source c =? irq) eqn:E.
  - destruct (slot_bound c); cbn; tauto.
  - destruct (register_slot o irq tl) as [st tl'] eqn:R. cbn.
    split.
    + rewrite Forall_forall in Hf |- *. intros d Hd Hsrc.
      assert (Hd' : In d (snd (register_slot o irq tl))) by (rewrite R; exact Hd).
      destruct (register_slot_in _ _ _ _ Hd') as [Hin | Hirq].
      * exact (Hf d Hin Hsrc).
      * apply Z.eqb_neq in E. congruence.
    + cbn in IH. exact (IH Htl).
Qed.

Lemma reachable_keeps_later_unbound (tbl tbl' : list client_id_range) :
  registry_reachable tbl tbl' ->
  later_slots_unbound tbl -> later_slots_unbound tbl'.
Proof.
  induction 1 as [| t1 t2 t3 Hs Hr IH]; intros Hinv; [exact Hinv |].
  apply IH. destruct Hs. apply register_keeps_later_unbound. exact Hinv.
Qed.

Lemma initial_later_unbound (tbl : list client_id_range) :
  registry_initial tbl -> later_slots_unbound tbl.
Proof.
  induction 1 as [| c tl Hc Htl IH]; cbn; [exact I |].
  split; [| exact IH].
  eapply Forall_impl; [| exact Htl]. cbn. intros d Hd _. exact Hd.
Qed.

Lemma later_unbound_count (irq : Z) (tbl : list client_id_range) :
  later_slots_unbound tbl -> (bound_slots_for irq tbl <= 1)%nat.
Proof.
  unfold bound_slots_for.
  induction tbl as [| c tl IH]; cbn; [lia |].
  intros [Hf Htl].
  destruct ((irq_source c =? irq) && slot_bound c) eqn:E.
  - apply andb_true_iff in E. destruct E as [Es _]. apply Z.eqb_eq in Es.
    cbn. enough (filter (fun d => (irq_source d =? irq) && slot_bound d) tl = [])
      as -> by (cbn; lia).
    clear IH Htl. induction Hf as [| d tl Hd Hf IHf]; cbn; [reflexivity |].
    destruct (Z.eqb_spec (irq_source d) irq) as [Hs |]; cbn; [| exact IHf].
    unfold slot_bound. rewrite (Hd ltac:(congruence)), Z.eqb_refl. exact IHf.
  - exact (IH Htl).
Qed.

(** Counterexample to claim C3: once source 5 is registered to owner A, a
    later call for source 5 with the null owner fails with InvalidOwner, not
    AlreadyRegistered: the owner is checked before the slot. *)
Lemma register_null_after_success_invalid_owner :
  fst (register_client_id_range owner_A 5 demo_registry) = REG_OK /\
  fst (register_client_id_range NULL 5
         (snd (register_client_id_range owner_A 5 demo_registry)))
    = REG_INVALID_OWNER.
Proof. split; reflexivity. Qed.

(** Claim C3 (as amended): a valid (non-null, non-sentinel) owner registers
    an unbound source; once bound, a source stays bound to that owner in
    every later state, and every call for it with a valid owner fails with
    AlreadyRegistered (an invalid owner fails with InvalidOwner); from the
    all-unregistered table each source is bound in at most one slot. *)
Theorem register_exactly_once :
  (forall o irq tbl c,
      owner_invalid o = false -> lookup_source irq tbl = Some c ->
      slot_bound c = false ->
      fst (register_client_id_range o irq tbl) = REG_OK /\
      lookup_source irq (snd (register_client_id_range o irq tbl))
        = Some (set_owner c o) /\
      slot_bound (set_owner c o) = true) /\
  (forall tbl tbl' irq c,
      lookup_source irq tbl = Some c -> slot_bound c = true ->
      registry_reachable tbl tbl' ->
      lookup_source irq tbl' = Some c /\
      (forall o, owner_invalid o = false ->
         register_client_id_range o irq tbl' = (REG_ALREADY_REGISTERED, tbl')) /\
      (forall o, owner_invalid o = true ->
         register_client_id_range o irq tbl' = (REG_INVALID_OWNER, tbl'))) /\
  (forall tbl0 tbl irq,
      registry_initial tbl0 -> registry_reachable tbl0 tbl ->
      (bound_slots_for irq tbl <= 1)%nat).
Proof.
  split; [| split].
  - intros o irq tbl c Ho H Hb.
    unfold register_client_id_range. rewrite Ho.
    destruct (register_slot_unbound o irq tbl c H Hb) as [H1 H2].
    split; [exact H1 | split; [exact H2 |]].
    unfold owner_invalid in Ho. apply orb_false_iff in Ho.
    unfold slot_bound; cbn. destruct Ho as [_ Ho]. rewrite Ho. reflexivity.
  - intros tbl tbl' irq c H Hb Hr.
    pose proof (reachable_keeps_bound_lookup tbl tbl' irq c Hr H Hb) as H'.
    split; [exact H' | split].
    + intros o Ho. unfold register_client_id_range. rewrite Ho.
      exact (register_slot_bound o irq tbl' c H' Hb).
    + intros o Ho. unfold register_client_id_range. rewrite Ho. reflexivity.
  - intros tbl0 tbl irq H0 Hr. apply later_unbound_count.
    apply (reachable_keeps_later_unbound tbl0 tbl Hr).
    apply initial_later_unbound. exact H0.
Qed.

End RegistryProofs.

Module OwnerProofs.
Import MultiCore MultiSpec.

(** Counterexample to claim C6: the sentinel owner is rejected, but with
    SPM_ERROR_GENERIC; the header reserves SPM_ERROR_BAD_PARAMETERS for the
    null owner. *)
Lemma register_sentinel_owner_generic_error :
  tfm_multi_core_register_client_id_range CLIENT_ID_OWNER_MAGIC 5 demo_registry
    = (SPM_ERROR_GENERIC, demo_registry).
Proof. reflexivity. Qed.

(** Claim C6 (as amended): for every source and table, the null owner and
    the sentinel owner are both rejected as InvalidOwner with the table left
    unchanged; the null owner is reported as SPM_ERROR_BAD_PARAMETERS and the
    sentinel as SPM_ERROR_GENERIC. *)
Theorem register_rejects_invalid_owner :
  forall (irq : Z) (tbl : list client_id_range),
    register_client_id_range NULL irq tbl = (REG_INVALID_OWNER, tbl) /\
    register_client_id_range CLIENT_ID_OWNER_MAGIC irq tbl
      = (REG_INVALID_OWNER, tbl) /\
    tfm_multi_core_register_client_id_range NULL irq tbl
      = (SPM_ERROR_BAD_PARAMETERS, tbl) /\
    tfm_multi_core_register_client_id_range CLIENT_ID_OWNER_MAGIC irq tbl
      = (SPM_ERROR_GENERIC, tbl).
Proof. intros irq tbl. repeat split. Qed.

End OwnerProofs.

Module TranslateProofs.
Import MultiCore MultiSpec.

Lemma wrap_int32_id (z : Z) : is_int32 z -> wrap_int32 z = z.
Proof.
  unfold is_int32, wrap_int32. intros Hz.
  rewrite Z.mod_small by lia. lia.
Qed.

Lemma wrap_int32_range (z : Z) : is_int32 (wrap_int32 z).
Proof.
  unfold is_int32, wrap_int32.
  pose proof (Z.mod_pos_bound (z + 2 ^ 31) (2 ^ 32) ltac:(lia)). lia.
Qed.

Lemma wrap_int32_sub (x y : Z) :
  wrap_int32 (wrap_int32 x - y) = wrap_int32 (x - y).
Proof.
  unfold wrap_int32.
  replace ((x + 2 ^ 31) mod 2 ^ 32 - 2 ^ 31 - y + 2 ^ 31)
    with ((x + 2 ^ 31) mod 2 ^ 32 - y) by ring.
  rewrite Zminus_mod_idemp_l.
  replace (x + 2 ^ 31 - y) with (x - y + 2 ^ 31) by ring.
  reflexivity.
Qed.

Lemma translate_ok_value (off o a : Z) (tbl : list client_id_range) (out : Z) :
  tfm_multi_core_hal_client_id_translate off o a tbl = XLATE_OK out ->
  out = wrap_int32 (a + off).
Proof.
  unfold tfm_multi_core_hal_client_id_translate.
  destruct (owner_invalid o); [discriminate |].
  destruct (lookup_owner o tbl) as [c |]; [| discriminate].
  destruct ((id_low c <=? a) && (a <=? id_high c)); [| discriminate].
  intros H. injection H as <-. reflexivity.
Qed.

Lemma untranslate_translate (off a : Z) :
  is_int32 a -> client_id_untranslate off (wrap_int32 (a + off)) = a.
Proof.
  intros Ha. unfold client_id_untranslate.
  rewrite wrap_int32_sub. replace (a + off - off) with a by ring.
  apply wrap_int32_id. exact Ha.
Qed.

(** Counterexample to claim C5: owner A registers sources 5 and 6, so it is
    bound to the slots [[1, 4]] and [[10, 20]]; translate only consults the
    first slot bound to A, and 15, inside the second slot's range, is out of
    range for every offset. *)
Lemma translate_second_slot_out_of_range :
  fst (register_client_id_range owner_A 5 demo_registry) = REG_OK /\
  fst (register_client_id_range owner_A 6
         (snd (register_client_id_range owner_A 5 demo_registry))) = REG_OK /\
  nth_error (snd (register_client_id_range owner_A 6
                   (snd (register_client_id_range owner_A 5 demo_registry)))) 1
    = Some {| irq_source := 6; id_low := 10; id_high := 20; owner := owner_A |} /\
  (forall off : Z,
     tfm_multi_core_hal_client_id_translate off owner_A 15
       (snd (register_client_id_range owner_A 6
              (snd (register_client_id_range owner_A 5 demo_registry))))
     = XLATE_OUT_OF_RANGE).
Proof. repeat split. Qed.

(** Claim C5 (as amended): for a valid owner, on the range of the first slot
    bound to it (the slot translate consults), translation succeeds on every
    int32 client ID, distinct client IDs give distinct outputs, every output
    is reversed by [client_id_untranslate], and IDs outside the range are out
    of range. *)
Theorem translate_first_slot_bijective :
  forall (off o : Z) (tbl : list client_id_range) (c : client_id_range),
    owner_invalid o = false -> lookup_owner o tbl = Some c ->
    (forall a, is_int32 a -> id_low c <= a <= id_high c ->
       exists out,
         tfm_multi_core_hal_client_id_translate off o a tbl = XLATE_OK out /\
         is_int32 out /\ client_id_untranslate off out = a) /\
    (forall a b oa ob, is_int32 a -> is_int32 b -> a <> b ->
       tfm_multi_core_hal_client_id_translate off o a tbl = XLATE_OK oa ->
       tfm_multi_core_hal_client_id_translate off o b tbl = XLATE_OK ob ->
       oa <> ob) /\
    (forall a, a < id_low c \/ id_high c < a ->
       tfm_multi_core_hal_client_id_translate off o a tbl = XLATE_OUT_OF_RANGE).
Proof.
  intros off o tbl c Ho Hc. split; [| split].
  - intros a Ha Hr. exists (wrap_int32 (a + off)).
    split; [| split; [apply wrap_int32_range | apply untranslate_translate; exact Ha]].
    unfold tfm_multi_core_hal_client_id_translate. rewrite Ho, Hc.
    destruct (Z.leb_spec (id_low c) a), (Z.leb_spec a (id_high c)); cbn;
      [reflexivity | lia ..].
  - intros a b oa ob Ha Hb Hab Hta Htb Heq.
    apply translate_ok_value in Hta. apply translate_ok_value in Htb.
    apply Hab.
    rewrite <- (untranslate_translate off a Ha), <- (untranslate_translate off b Hb).
    congruence.
  - intros a Hr.
    unfold tfm_multi_core_hal_client_id_translate. rewrite Ho, Hc.
    destruct (Z.leb_spec (id_low c) a), (Z.leb_spec a (id_high c)); cbn;
      [lia | reflexivity ..].
Qed.

Lemma translate_first_slot_bijective_witness :
  tfm_multi_core_hal_client_id_translate 0x100 owner_A 9
    (snd (register_client_id_range owner_A 5 demo_registry))
  = XLATE_OUT_OF_RANGE.
Proof.
  destruct (translate_first_slot_bijective 0x100 owner_A
              (snd (register_client_id_range owner_A 5 demo_registry))
              (set_owner (unregistered_slot 5 1 4) owner_A)
              eq_refl eq_refl) as (_ & _ & H3).
  apply H3. cbn. lia.
Defined.

End TranslateProofs.

(** ** Power control: field read-back and composition of the setters *)

Module PowerExtraProofs.
Import PowerControl PowerSpec PowerProofs.

(** Membership of a row in a concrete mode table. *)
Ltac in_table := simpl; repeat (first [left; reflexivity | right]).

(** The field layout hypotheses, evaluated on a concrete layout. *)
Ltac example_fields_ok :=
  unfold cpdlpstate_fields_disjoint, pwrmodctl_masks32, mask32;
  simpl; repeat split; first [reflexivity | lia].

Lemma testbit_small (x n : Z) : 0 <= x < 4 -> 2 <= n -> Z.testbit x n = false.
Proof.
  intros Hx Hn.
  assert (x = 0 \/ x = 1 \/ x = 2 \/ x = 3) as Hc by lia.
  destruct Hc as [-> | [-> | [-> | ->]]];
    [apply Z.bits_0 | apply Z.bits_above_log2; cbn; lia ..].
Qed.

Lemma mask_bit_lt (m n : Z) : mask32 m -> Z.testbit m n = true -> n < 32.
Proof.
  intros [H0 H1] Hb.
  destruct (Z.lt_ge_cases n 32) as [Hl | Hl]; [exact Hl |].
  destruct (Z.lt_ge_cases n 0) as [Hn | Hn].
  - rewrite Z.testbit_neg_r in Hb by exact Hn. discriminate.
  - rewrite <- (Z.mod_small m (2 ^ 32)) in Hb by lia.
    rewrite Z.mod_pow2_bits_high in Hb by lia. discriminate.
Qed.

Lemma mask_bit_not (m n : Z) :
  mask32 m -> Z.testbit m n = true -> Z.testbit (u32_not m) n = false.
Proof.
  intros Hm Hb.
  assert (n < 32) by (exact (mask_bit_lt m n Hm Hb)).
  destruct (Z.lt_ge_cases n 0) as [Hn | Hn].
  - apply Z.testbit_neg_r. exact Hn.
  - rewrite u32_not_testbit by lia. rewrite Hb. reflexivity.
Qed.

(** Above bit 31 a field write leaves nothing: [~Msk] is a 32-bit value. *)
Lemma set_field_testbit_high (reg v pos msk n : Z) :
  mask32 msk -> 32 <= n -> Z.testbit (set_field reg v pos msk) n = false.
Proof.
  intros Hm Hn.
  assert (Hmn : Z.testbit msk n = false).
  { destruct (Z.testbit msk n) eqn:E; [| reflexivity].
    pose proof (mask_bit_lt msk n Hm E). lia. }
  unfold set_field, u32_not, MASK32.
  rewrite Z.lor_spec, !Z.land_spec, Z.lxor_spec, Hmn.
  replace (2 ^ 32 - 1) with (Z.ones 32) by reflexivity.
  rewrite Z.ones_spec_high by lia.
  rewrite !andb_false_r. reflexivity.
Qed.

Lemma set_field_twice (reg v1 v2 pos msk : Z) :
  mask32 msk ->
  set_field (set_field reg v1 pos msk) v2 pos msk = set_field reg v2 pos msk.
Proof.
  intros Hm. apply Z.bits_inj'. intros n Hn.
  unfold set_field.
  repeat (rewrite Z.lor_spec || rewrite Z.land_spec).
  destruct (Z.testbit msk n) eqn:Hb.
  - rewrite (mask_bit_not msk n Hm Hb).
    destruct (Z.testbit reg n), (Z.testbit (Z.shiftl v1 pos) n),
      (Z.testbit (Z.shiftl v2 pos) n); reflexivity.
  - destruct (Z.testbit (u32_not msk) n), (Z.testbit reg n),
      (Z.testbit (Z.shiftl v1 pos) n), (Z.testbit (Z.shiftl v2 pos) n);
      reflexivity.
Qed.

Lemma set_field_commute (reg v1 v2 p1 p2 m1 m2 : Z) :
  mask32 m1 -> mask32 m2 -> Z.land m1 m2 = 0 ->
  set_field (set_field reg v2 p2 m2) v1 p1 m1 =
  set_field (set_field reg v1 p1 m1) v2 p2 m2.
Proof.
  intros H1 H2 H12. apply Z.bits_inj'. intros n Hn.
  assert (D : Z.testbit m1 n && Z.testbit m2 n = false)
    by (rewrite <- Z.land_spec, H12; apply Z.bits_0).
  unfold set_field.
  repeat (rewrite Z.lor_spec || rewrite Z.land_spec).
  destruct (Z.testbit m1 n) eqn:B1, (Z.testbit m2 n) eqn:B2;
    try discriminate D.
  - rewrite (mask_bit_not m1 n H1 B1).
    rewrite u32_not_testbit by (pose proof (mask_bit_lt m1 n H1 B1); lia).
    rewrite B2.
    destruct (Z.testbit reg n), (Z.testbit (Z.shiftl v1 p1) n),
      (Z.testbit (Z.shiftl v2 p2) n); reflexivity.
  - rewrite (mask_bit_not m2 n H2 B2).
    rewrite u32_not_testbit by (pose proof (mask_bit_lt m2 n H2 B2); lia).
    rewrite B1.
    destruct (Z.testbit reg n), (Z.testbit (Z.shiftl v1 p1) n),
      (Z.testbit (Z.shiftl v2 p2) n); reflexivity.
  - destruct (Z.testbit (u32_not m1) n), (Z.testbit (u32_not m2) n),
      (Z.testbit reg n); rewrite ?andb_false_r; reflexivity.
Qed.

Lemma pdcm_sense_update_holds (r : Z) (s : PDCM_MIN_PWR_STATES) :
  sense_holds r (pdcm_sense_update r s) s.
Proof.
  split.
  - apply Z.bits_inj'. intros n Hn. unfold pdcm_field.
    rewrite Z.land_spec, Z.shiftr_spec by exact Hn.
    unfold PDCM_PD_SENSE_MIN_PWR_STATE_Pos.
    destruct (Z.lt_ge_cases n 2) as [Hl | Hl].
    + assert (n = 0 \/ n = 1) as [-> | ->] by lia;
        unfold pdcm_sense_update; rewrite set_field_testbit by lia;
        destruct s; reflexivity.
    + rewrite (testbit_small 3 n) by lia. rewrite andb_false_r.
      symmetry. apply testbit_small; [destruct s; cbn; lia | lia].
  - intros n Hn. unfold pdcm_sense_update.
    rewrite set_field_testbit by lia.
    unfold PDCM_PD_SENSE_MIN_PWR_STATE_Msk, PDCM_PD_SENSE_MIN_PWR_STATE_Pos.
    rewrite Z.shiftl_spec_low by lia. reflexivity.
Qed.

Lemma pdcm_msk_mask32 : mask32 PDCM_PD_SENSE_MIN_PWR_STATE_Msk.
Proof. split; [apply Z.leb_le | apply Z.ltb_lt]; reflexivity. Qed.

Lemma tcm_msk_mask32 : mask32 CPUPWRCFG_TCM_MIN_PWR_STATE_Msk.
Proof. split; [apply Z.leb_le | apply Z.ltb_lt]; reflexivity. Qed.

Lemma pdcm_min_pwr_state_val_inj (a b : PDCM_MIN_PWR_STATES) :
  pdcm_min_pwr_state_val a = pdcm_min_pwr_state_val b -> a = b.
Proof. destruct a, b; cbn; congruence. Qed.

Lemma br_sys_modes_sequence :
  Forall (fun m => forall sc,
    sys_mode_fn m sc =
    PD_VMR1_SET_MIN_PWR_STATE (sys_mode_vmr1 m)
      (PD_VMR0_SET_MIN_PWR_STATE (sys_mode_vmr0 m)
        (PD_SYS_SET_MIN_PWR_STATE (sys_mode_sys m) sc))) br_sys_modes.
Proof.
  repeat (apply Forall_cons; [intros; reflexivity |]). apply Forall_nil.
Qed.

Lemma br_sys_sequence_sets (a b c : PDCM_MIN_PWR_STATES) :
  sets_sys_fields (Build_br_sys_mode
    (fun sc => PD_VMR1_SET_MIN_PWR_STATE c
                 (PD_VMR0_SET_MIN_PWR_STATE b (PD_SYS_SET_MIN_PWR_STATE a sc)))
    a b c).
Proof.
  intros sc. split; [| split]; apply pdcm_sense_update_holds.
Qed.

Lemma br_sys_sequence_fields (a b c : PDCM_MIN_PWR_STATES)
    (sc : mps4_corstone3xx_sysctrl_t) :
  let sc' := PD_VMR1_SET_MIN_PWR_STATE c
               (PD_VMR0_SET_MIN_PWR_STATE b (PD_SYS_SET_MIN_PWR_STATE a sc)) in
  pdcm_field (pdcm_pd_sys_sense sc') = pdcm_min_pwr_state_val a /\
  pdcm_field (pdcm_pd_vmr0_sense sc') = pdcm_min_pwr_state_val b /\
  pdcm_field (pdcm_pd_vmr1_sense sc') = pdcm_min_pwr_state_val c.
Proof.
  split; [| split]; apply (proj1 (pdcm_sense_update_holds _ _)).
Qed.

Lemma br_sys_sequence_twice (a1 b1 c1 a2 b2 c2 : PDCM_MIN_PWR_STATES)
    (sc : mps4_corstone3xx_sysctrl_t) :
  PD_VMR1_SET_MIN_PWR_STATE c2
    (PD_VMR0_SET_MIN_PWR_STATE b2 (PD_SYS_SET_MIN_PWR_STATE a2
      (PD_VMR1_SET_MIN_PWR_STATE c1
        (PD_VMR0_SET_MIN_PWR_STATE b1 (PD_SYS_SET_MIN_PWR_STATE a1 sc))))) =
  PD_VMR1_SET_MIN_PWR_STATE c2
    (PD_VMR0_SET_MIN_PWR_STATE b2 (PD_SYS_SET_MIN_PWR_STATE a2 sc)).
Proof.
  unfold PD_VMR1_SET_MIN_PWR_STATE, PD_VMR0_SET_MIN_PWR_STATE,
    PD_SYS_SET_MIN_PWR_STATE.
  cbn [pdcm_pd_sys_sense pdcm_pd_vmr0_sense pdcm_pd_vmr1_sense].
  f_equal; unfold pdcm_sense_update; apply set_field_twice, pdcm_msk_mask32.
Qed.

Lemma br_cpu0_modes_sequence :
  Forall (fun m => forall F st,
    cpu0_mode_fn m F st =
    br_cpu0_sequence F (cpu0_mode_core m) (cpu0_mode_epu m) (cpu0_mode_ram m)
      (cpu0_mode_tcm m) st) br_cpu0_modes.
Proof.
  repeat (apply Forall_cons; [intros; reflexivity |]). apply Forall_nil.
Qed.

Lemma set_fields3_twice (x a1 b1 c1 a2 b2 c2 pa pb pc ma mb mc : Z) :
  mask32 ma -> mask32 mb -> mask32 mc ->
  set_field (set_field (set_field (set_field (set_field (set_field x
    a1 pa ma) b1 pb mb) c1 pc mc) a2 pa ma) b2 pb mb) c2 pc mc =
  set_field (set_field (set_field x a2 pa ma) b2 pb mb) c2 pc mc.
Proof.
  intros Ha Hb Hc. apply Z.bits_inj'. intros n Hn.
  destruct (Z.lt_ge_cases n 32) as [Hl | Hl].
  - rewrite !set_field_testbit by lia.
    destruct (Z.testbit ma n), (Z.testbit mb n), (Z.testbit mc n); reflexivity.
  - rewrite !set_field_testbit_high by assumption. reflexivity.
Qed.

Lemma br_cpu0_sequence_twice (F : pwrmodctl_fields)
    (c1 e1 r1 c2 e2 r2 : CPU_MIN_PWR_STATES) (t1 t2 : PDCM_MIN_PWR_STATES)
    (st : cpu0_power_regs) :
  pwrmodctl_masks32 F ->
  br_cpu0_sequence F c2 e2 r2 t2 (br_cpu0_sequence F c1 e1 r1 t1 st) =
  br_cpu0_sequence F c2 e2 r2 t2 st.
Proof.
  intros (MC & ME & MR & _).
  unfold br_cpu0_sequence, PD_CPU0_TCM_SET, PD_CPU0_TCM_SET_MIN_PWR_STATE,
    PD_CPU0_RAM_SET_MIN_PWR_STATE, PD_CPU0_EPU_SET_MIN_PWR_STATE,
    PD_CPU0_CORE_SET_MIN_PWR_STATE.
  cbn [pwrmodctl pwrctrl CPDLPSTATE DPDLPSTATE cpupwrcfg].
  rewrite set_fields3_twice by assumption.
  rewrite set_field_twice by exact tcm_msk_mask32.
  reflexivity.
Qed.

Lemma br_cpu0_sequence_sets (F : pwrmodctl_fields)
    (c e r : CPU_MIN_PWR_STATES) (t : PDCM_MIN_PWR_STATES) :
  cpdlpstate_fields_disjoint F ->
  sets_cpu0_fields F
    (Build_br_cpu0_mode (fun F' => br_cpu0_sequence F' c e r t) c e r t).
Proof.
  intros (HCE & HCR & HER).
  unfold sets_cpu0_fields. intros st. cbv zeta.
  cbn [cpu0_mode_fn cpu0_mode_core cpu0_mode_epu cpu0_mode_ram cpu0_mode_tcm].
  unfold br_cpu0_sequence, PD_CPU0_TCM_SET, PD_CPU0_TCM_SET_MIN_PWR_STATE,
    PD_CPU0_RAM_SET_MIN_PWR_STATE, PD_CPU0_EPU_SET_MIN_PWR_STATE,
    PD_CPU0_CORE_SET_MIN_PWR_STATE.
  cbn [pwrmodctl pwrctrl CPDLPSTATE DPDLPSTATE cpupwrcfg].
  split; [| split; [reflexivity | split]].
  - intros n Hn. rewrite !set_field_testbit by exact Hn.
    unfold cpdlpstate_bit.
    assert (D1 : Z.testbit (PWRMODCTL_CPDLPSTATE_CLPSTATE_Msk F) n &&
                 Z.testbit (PWRMODCTL_CPDLPSTATE_ELPSTATE_Msk F) n = false)
      by (rewrite <- Z.land_spec, HCE; apply Z.bits_0).
    assert (D2 : Z.testbit (PWRMODCTL_CPDLPSTATE_CLPSTATE_Msk F) n &&
                 Z.testbit (PWRMODCTL_CPDLPSTATE_RLPSTATE_Msk F) n = false)
      by (rewrite <- Z.land_spec, HCR; apply Z.bits_0).
    assert (D3 : Z.testbit (PWRMODCTL_CPDLPSTATE_ELPSTATE_Msk F) n &&
                 Z.testbit (PWRMODCTL_CPDLPSTATE_RLPSTATE_Msk F) n = false)
      by (rewrite <- Z.land_spec, HER; apply Z.bits_0).
    destruct (Z.testbit (PWRMODCTL_CPDLPSTATE_CLPSTATE_Msk F) n),
      (Z.testbit (PWRMODCTL_CPDLPSTATE_ELPSTATE_Msk F) n),
      (Z.testbit (PWRMODCTL_CPDLPSTATE_RLPSTATE_Msk F) n);
      first [discriminate D1 | discriminate D2 | discriminate D3 | reflexivity].
  - rewrite set_field_testbit by (unfold CPUPWRCFG_TCM_MIN_PWR_STATE_Pos; lia).
    destruct t; reflexivity.
  - intros n Hn H4. rewrite set_field_testbit by exact Hn.
    unfold CPUPWRCFG_TCM_MIN_PWR_STATE_Msk.
    replace (Z.shiftl 1 CPUPWRCFG_TCM_MIN_PWR_STATE_Pos) with (2 ^ 4)
      by reflexivity.
    rewrite Z.pow2_bits_false
      by (unfold CPUPWRCFG_TCM_MIN_PWR_STATE_Pos in H4; lia).
    reflexivity.
Qed.

(** PD_SYS_SET_MIN_PWR_STATE, PD_VMR0_SET_MIN_PWR_STATE and
    PD_VMR1_SET_MIN_PWR_STATE: for every state and every initial register
    contents, the register written reads back the state's enumerator value in
    its MIN_PWR_STATE field (bits 30..31), keeps its bits 0..29, and the two
    other sense registers are left unchanged. *)
Theorem pdcm_setters_read_back :
  forall (s : PDCM_MIN_PWR_STATES) (sc : mps4_corstone3xx_sysctrl_t),
    (sense_holds (pdcm_pd_sys_sense sc)
       (pdcm_pd_sys_sense (PD_SYS_SET_MIN_PWR_STATE s sc)) s /\
     pdcm_pd_vmr0_sense (PD_SYS_SET_MIN_PWR_STATE s sc) = pdcm_pd_vmr0_sense sc /\
     pdcm_pd_vmr1_sense (PD_SYS_SET_MIN_PWR_STATE s sc) = pdcm_pd_vmr1_sense sc) /\
    (sense_holds (pdcm_pd_vmr0_sense sc)
       (pdcm_pd_vmr0_sense (PD_VMR0_SET_MIN_PWR_STATE s sc)) s /\
     pdcm_pd_sys_sense (PD_VMR0_SET_MIN_PWR_STATE s sc) = pdcm_pd_sys_sense sc /\
     pdcm_pd_vmr1_sense (PD_VMR0_SET_MIN_PWR_STATE s sc) = pdcm_pd_vmr1_sense sc) /\
    (sense_holds (pdcm_pd_vmr1_sense sc)
       (pdcm_pd_vmr1_sense (PD_VMR1_SET_MIN_PWR_STATE s sc)) s /\
     pdcm_pd_sys_sense (PD_VMR1_SET_MIN_PWR_STATE s sc) = pdcm_pd_sys_sense sc /\
     pdcm_pd_vmr0_sense (PD_VMR1_SET_MIN_PWR_STATE s sc) = pdcm_pd_vmr0_sense sc).
Proof.
  intros s sc.
  split; [| split];
    (split; [apply pdcm_sense_update_holds | split; reflexivity]).
Qed.

(** The PD_SYS, PD_VMR0, PD_VMR1 and PD_CPU0_TCM setters: a second write to
    the same field overrides the first, whatever both states are. *)
Theorem pdcm_setters_last_write_wins :
  forall (s1 s2 : PDCM_MIN_PWR_STATES) (sc : mps4_corstone3xx_sysctrl_t)
         (pc : cpu0_pwrctrl_t),
    PD_SYS_SET_MIN_PWR_STATE s2 (PD_SYS_SET_MIN_PWR_STATE s1 sc) =
      PD_SYS_SET_MIN_PWR_STATE s2 sc /\
    PD_VMR0_SET_MIN_PWR_STATE s2 (PD_VMR0_SET_MIN_PWR_STATE s1 sc) =
      PD_VMR0_SET_MIN_PWR_STATE s2 sc /\
    PD_VMR1_SET_MIN_PWR_STATE s2 (PD_VMR1_SET_MIN_PWR_STATE s1 sc) =
      PD_VMR1_SET_MIN_PWR_STATE s2 sc /\
    PD_CPU0_TCM_SET_MIN_PWR_STATE s2 (PD_CPU0_TCM_SET_MIN_PWR_STATE s1 pc) =
      PD_CPU0_TCM_SET_MIN_PWR_STATE s2 pc.
Proof.
  intros s1 s2 sc pc.
  unfold PD_SYS_SET_MIN_PWR_STATE, PD_VMR0_SET_MIN_PWR_STATE,
    PD_VMR1_SET_MIN_PWR_STATE, PD_CPU0_TCM_SET_MIN_PWR_STATE, pdcm_sense_update.
  cbn [pdcm_pd_sys_sense pdcm_pd_vmr0_sense pdcm_pd_vmr1_sense cpupwrcfg].
  split; [| split; [| split]]; f_equal; apply set_field_twice;
    first [exact pdcm_msk_mask32 | exact tcm_msk_mask32].
Qed.

(** The thirteen BR_SYS_SET_MIN_PWR_STATE_* functions: from every initial
    state, each sets the MIN_PWR_STATE fields of PDCM_PD_SYS_SENSE,
    PDCM_PD_VMR0_SENSE and PDCM_PD_VMR1_SENSE to the three states it passes,
    keeping bits 0..29 of each register. *)
Theorem br_sys_modes_set_fields : Forall sets_sys_fields br_sys_modes.
Proof.
  repeat (apply Forall_cons; [apply br_sys_sequence_sets |]). apply Forall_nil.
Qed.

(** Two BR_SYS_SET_MIN_PWR_STATE_* functions give the same registers from an
    initial state exactly when they pass the same (SYS, VMR0, VMR1) states:
    any single initial state tells apart functions with different states. *)
Theorem br_sys_modes_agree_iff_same_states :
  forall (m1 m2 : br_sys_mode) (sc : mps4_corstone3xx_sysctrl_t),
    In m1 br_sys_modes -> In m2 br_sys_modes ->
    (sys_mode_fn m1 sc = sys_mode_fn m2 sc <->
     (sys_mode_sys m1, sys_mode_vmr0 m1, sys_mode_vmr1 m1) =
     (sys_mode_sys m2, sys_mode_vmr0 m2, sys_mode_vmr1 m2)).
Proof.
  intros m1 m2 sc H1 H2.
  pose proof br_sys_modes_sequence as HS. rewrite Forall_forall in HS.
  rewrite (HS m1 H1 sc), (HS m2 H2 sc).
  split.
  - intros E.
    destruct (br_sys_sequence_fields (sys_mode_sys m1) (sys_mode_vmr0 m1)
                (sys_mode_vmr1 m1) sc) as (A1 & B1 & C1).
    destruct (br_sys_sequence_fields (sys_mode_sys m2) (sys_mode_vmr0 m2)
                (sys_mode_vmr1 m2) sc) as (A2 & B2 & C2).
    cbv zeta in A1, B1, C1, A2, B2, C2.
    rewrite E in A1, B1, C1.
    rewrite A1 in A2. rewrite B1 in B2. rewrite C1 in C2.
    apply pdcm_min_pwr_state_val_inj in A2, B2, C2.
    rewrite A2, B2, C2. reflexivity.
  - intros E. injection E as Ea Eb Ec.
    rewrite Ea, Eb, Ec. reflexivity.
Qed.

Lemma br_sys_modes_agree_iff_same_states_witness :
  In (Build_br_sys_mode BR_SYS_SET_MIN_PWR_STATE_FULL_RET_OPMODE1
        PDCM_MIN_PWR_STATE_RET PDCM_MIN_PWR_STATE_RET PDCM_MIN_PWR_STATE_OFF)
     br_sys_modes /\
  In (Build_br_sys_mode BR_SYS_SET_MIN_PWR_STATE_ON_OPMODE2
        PDCM_MIN_PWR_STATE_ON PDCM_MIN_PWR_STATE_OFF PDCM_MIN_PWR_STATE_ON)
     br_sys_modes /\
  (BR_SYS_SET_MIN_PWR_STATE_FULL_RET_OPMODE1
     {| pdcm_pd_sys_sense := 0; pdcm_pd_vmr0_sense := 0; pdcm_pd_vmr1_sense := 0 |} =
   BR_SYS_SET_MIN_PWR_STATE_ON_OPMODE2
     {| pdcm_pd_sys_sense := 0; pdcm_pd_vmr0_sense := 0; pdcm_pd_vmr1_sense := 0 |} <->
   (PDCM_MIN_PWR_STATE_RET, PDCM_MIN_PWR_STATE_RET, PDCM_MIN_PWR_STATE_OFF) =
   (PDCM_MIN_PWR_STATE_ON, PDCM_MIN_PWR_STATE_OFF, PDCM_MIN_PWR_STATE_ON)).
Proof.
  split; [in_table | split; [in_table |]].
  apply (br_sys_modes_agree_iff_same_states
    (Build_br_sys_mode BR_SYS_SET_MIN_PWR_STATE_FULL_RET_OPMODE1
       PDCM_MIN_PWR_STATE_RET PDCM_MIN_PWR_STATE_RET PDCM_MIN_PWR_STATE_OFF)
    (Build_br_sys_mode BR_SYS_SET_MIN_PWR_STATE_ON_OPMODE2
       PDCM_MIN_PWR_STATE_ON PDCM_MIN_PWR_STATE_OFF PDCM_MIN_PWR_STATE_ON));
    in_table.
Defined.

(** Running one BR_SYS_SET_MIN_PWR_STATE_* function after another gives the
    same registers as running only the second: the earlier mode leaves no
    trace in the sense registers. *)
Theorem br_sys_last_mode_wins :
  forall (m1 m2 : br_sys_mode) (sc : mps4_corstone3xx_sysctrl_t),
    In m1 br_sys_modes -> In m2 br_sys_modes ->
    sys_mode_fn m2 (sys_mode_fn m1 sc) = sys_mode_fn m2 sc.
Proof.
  intros m1 m2 sc H1 H2.
  pose proof br_sys_modes_sequence as HS. rewrite Forall_forall in HS.
  rewrite (HS m1 H1 sc), !(HS m2 H2).
  apply br_sys_sequence_twice.
Qed.

Lemma br_sys_last_mode_wins_witness :
  In (Build_br_sys_mode BR_SYS_SET_MIN_PWR_STATE_OFF
        PDCM_MIN_PWR_STATE_OFF PDCM_MIN_PWR_STATE_OFF PDCM_MIN_PWR_STATE_OFF)
     br_sys_modes /\
  In (Build_br_sys_mode BR_SYS_SET_MIN_PWR_STATE_ON_OPMODE3
        PDCM_MIN_PWR_STATE_ON PDCM_MIN_PWR_STATE_ON PDCM_MIN_PWR_STATE_ON)
     br_sys_modes /\
  BR_SYS_SET_MIN_PWR_STATE_ON_OPMODE3 (BR_SYS_SET_MIN_PWR_STATE_OFF
     {| pdcm_pd_sys_sense := 1; pdcm_pd_vmr0_sense := 2; pdcm_pd_vmr1_sense := 3 |}) =
  BR_SYS_SET_MIN_PWR_STATE_ON_OPMODE3
     {| pdcm_pd_sys_sense := 1; pdcm_pd_vmr0_sense := 2; pdcm_pd_vmr1_sense := 3 |}.
Proof.
  split; [in_table | split; [in_table |]].
  apply (br_sys_last_mode_wins
    (Build_br_sys_mode BR_SYS_SET_MIN_PWR_STATE_OFF
       PDCM_MIN_PWR_STATE_OFF PDCM_MIN_PWR_STATE_OFF PDCM_MIN_PWR_STATE_OFF)
    (Build_br_sys_mode BR_SYS_SET_MIN_PWR_STATE_ON_OPMODE3
       PDCM_MIN_PWR_STATE_ON PDCM_MIN_PWR_STATE_ON PDCM_MIN_PWR_STATE_ON));
    in_table.
Defined.

(** PD_CPU0_CORE, PD_CPU0_EPU, PD_CPU0_RAM and PD_CPU0_DEBUG setters: when
    the CLPSTATE, ELPSTATE and RLPSTATE masks do not overlap and all masks fit
    in 32 bits, the core, EPU and RAM setters commute with one another, and a
    second write by any of the four setters overrides the first. *)
Theorem cpu0_setters_commute_last_write_wins :
  forall F : pwrmodctl_fields,
    cpdlpstate_fields_disjoint F -> pwrmodctl_masks32 F ->
    forall (a b : CPU_MIN_PWR_STATES) (st : cpu0_power_regs),
      PD_CPU0_CORE_SET_MIN_PWR_STATE F a (PD_CPU0_EPU_SET_MIN_PWR_STATE F b st) =
        PD_CPU0_EPU_SET_MIN_PWR_STATE F b (PD_CPU0_CORE_SET_MIN_PWR_STATE F a st) /\
      PD_CPU0_CORE_SET_MIN_PWR_STATE F a (PD_CPU0_RAM_SET_MIN_PWR_STATE F b st) =
        PD_CPU0_RAM_SET_MIN_PWR_STATE F b (PD_CPU0_CORE_SET_MIN_PWR_STATE F a st) /\
      PD_CPU0_EPU_SET_MIN_PWR_STATE F a (PD_CPU0_RAM_SET_MIN_PWR_STATE F b st) =
        PD_CPU0_RAM_SET_MIN_PWR_STATE F b (PD_CPU0_EPU_SET_MIN_PWR_STATE F a st) /\
      PD_CPU0_CORE_SET_MIN_PWR_STATE F a (PD_CPU0_CORE_SET_MIN_PWR_STATE F b st) =
        PD_CPU0_CORE_SET_MIN_PWR_STATE F a st /\
      PD_CPU0_EPU_SET_MIN_PWR_STATE F a (PD_CPU0_EPU_SET_MIN_PWR_STATE F b st) =
        PD_CPU0_EPU_SET_MIN_PWR_STATE F a st /\
      PD_CPU0_RAM_SET_MIN_PWR_STATE F a (PD_CPU0_RAM_SET_MIN_PWR_STATE F b st) =
        PD_CPU0_RAM_SET_MIN_PWR_STATE F a st /\
      PD_CPU0_DEBUG_SET_MIN_PWR_STATE F a (PD_CPU0_DEBUG_SET_MIN_PWR_STATE F b st) =
        PD_CPU0_DEBUG_SET_MIN_PWR_STATE F a st.
Proof.
  intros F (HCE & HCR & HER) (MC & ME & MR & MD) a b st.
  unfold PD_CPU0_CORE_SET_MIN_PWR_STATE, PD_CPU0_EPU_SET_MIN_PWR_STATE,
    PD_CPU0_RAM_SET_MIN_PWR_STATE, PD_CPU0_DEBUG_SET_MIN_PWR_STATE.
  cbn [pwrmodctl pwrctrl CPDLPSTATE DPDLPSTATE].
  refine (conj _ (conj _ (conj _ (conj _ (conj _ (conj _ _)))))).
  1-3: rewrite set_field_commute by assumption; reflexivity.
  all: rewrite set_field_twice by assumption; reflexivity.
Qed.

Lemma cpu0_setters_commute_last_write_wins_witness :
  cpdlpstate_fields_disjoint example_pwrmodctl_fields /\
  pwrmodctl_masks32 example_pwrmodctl_fields /\
  PD_CPU0_CORE_SET_MIN_PWR_STATE example_pwrmodctl_fields CPU_MIN_PWR_STATE_RET
    (PD_CPU0_EPU_SET_MIN_PWR_STATE example_pwrmodctl_fields CPU_MIN_PWR_STATE_OFF
       {| pwrmodctl := {| CPDLPSTATE := 0; DPDLPSTATE := 0 |};
          pwrctrl := {| cpupwrcfg := 0 |} |}) =
  PD_CPU0_EPU_SET_MIN_PWR_STATE example_pwrmodctl_fields CPU_MIN_PWR_STATE_OFF
    (PD_CPU0_CORE_SET_MIN_PWR_STATE example_pwrmodctl_fields CPU_MIN_PWR_STATE_RET
       {| pwrmodctl := {| CPDLPSTATE := 0; DPDLPSTATE := 0 |};
          pwrctrl := {| cpupwrcfg := 0 |} |}).
Proof.
  split; [example_fields_ok | split; [example_fields_ok |]].
  apply (proj1 (cpu0_setters_commute_last_write_wins example_pwrmodctl_fields
    ltac:(example_fields_ok) ltac:(example_fields_ok) CPU_MIN_PWR_STATE_RET
    CPU_MIN_PWR_STATE_OFF
    {| pwrmodctl := {| CPDLPSTATE := 0; DPDLPSTATE := 0 |};
       pwrctrl := {| cpupwrcfg := 0 |} |})).
Defined.

(** The twelve BR_CPU0_SET_MIN_PWR_STATE_* functions: when the CLPSTATE,
    ELPSTATE and RLPSTATE masks do not overlap, from every initial state each
    writes its core, EPU and RAM states into their CPDLPSTATE fields (other
    bits of the low 32 kept), leaves DPDLPSTATE unchanged, sets CPUPWRCFG
    bit 4 exactly when its TCM state is RET, and keeps the other low 32 bits
    of CPUPWRCFG. *)
Theorem br_cpu0_modes_set_fields :
  forall F : pwrmodctl_fields,
    cpdlpstate_fields_disjoint F -> Forall (sets_cpu0_fields F) br_cpu0_modes.
Proof.
  intros F HD.
  repeat (apply Forall_cons; [apply br_cpu0_sequence_sets; exact HD |]).
  apply Forall_nil.
Qed.

Lemma br_cpu0_modes_set_fields_witness :
  cpdlpstate_fields_disjoint example_pwrmodctl_fields /\
  Forall (sets_cpu0_fields example_pwrmodctl_fields) br_cpu0_modes.
Proof.
  split; [example_fields_ok |].
  apply br_cpu0_modes_set_fields. example_fields_ok.
Defined.

(** When the PWRMODCTL masks fit in 32 bits, running one
    BR_CPU0_SET_MIN_PWR_STATE_* function after another gives the same
    registers as running only the second. *)
Theorem br_cpu0_last_mode_wins :
  forall F : pwrmodctl_fields, pwrmodctl_masks32 F ->
  forall (m1 m2 : br_cpu0_mode) (st : cpu0_power_regs),
    In m1 br_cpu0_modes -> In m2 br_cpu0_modes ->
    cpu0_mode_fn m2 F (cpu0_mode_fn m1 F st) = cpu0_mode_fn m2 F st.
Proof.
  intros F HM m1 m2 st H1 H2.
  pose proof br_cpu0_modes_sequence as HS. rewrite Forall_forall in HS.
  rewrite (HS m1 H1 F st), !(HS m2 H2 F).
  apply br_cpu0_sequence_twice. exact HM.
Qed.

Lemma br_cpu0_last_mode_wins_witness :
  pwrmodctl_masks32 example_pwrmodctl_fields /\
  In (Build_br_cpu0_mode BR_CPU0_SET_MIN_PWR_STATE_OFF CPU_MIN_PWR_STATE_OFF
        CPU_MIN_PWR_STATE_OFF CPU_MIN_PWR_STATE_OFF PDCM_MIN_PWR_STATE_OFF)
     br_cpu0_modes /\
  In (Build_br_cpu0_mode BR_CPU0_SET_MIN_PWR_STATE_ON CPU_MIN_PWR_STATE_ON
        CPU_MIN_PWR_STATE_ON CPU_MIN_PWR_STATE_ON PDCM_MIN_PWR_STATE_ON)
     br_cpu0_modes /\
  BR_CPU0_SET_MIN_PWR_STATE_ON example_pwrmodctl_fields
    (BR_CPU0_SET_MIN_PWR_STATE_OFF example_pwrmodctl_fields
       {| pwrmodctl := {| CPDLPSTATE := 7; DPDLPSTATE := 5 |};
          pwrctrl := {| cpupwrcfg := 16 |} |}) =
  BR_CPU0_SET_MIN_PWR_STATE_ON example_pwrmodctl_fields
    {| pwrmodctl := {| CPDLPSTATE := 7; DPDLPSTATE := 5 |};
       pwrctrl := {| cpupwrcfg := 16 |} |}.
Proof.
  split; [example_fields_ok | split; [in_table | split; [in_table |]]].
  apply (br_cpu0_last_mode_wins example_pwrmodctl_fields ltac:(example_fields_ok)
    (Build_br_cpu0_mode BR_CPU0_SET_MIN_PWR_STATE_OFF CPU_MIN_PWR_STATE_OFF
       CPU_MIN_PWR_STATE_OFF CPU_MIN_PWR_STATE_OFF PDCM_MIN_PWR_STATE_OFF)
    (Build_br_cpu0_mode BR_CPU0_SET_MIN_PWR_STATE_ON CPU_MIN_PWR_STATE_ON
       CPU_MIN_PWR_STATE_ON CPU_MIN_PWR_STATE_ON PDCM_MIN_PWR_STATE_ON));
    in_table.
Defined.

End PowerExtraProofs.
